(** * Clerk user migration script: a shallow embedding of [index.ts]

    The repository holds two scripts: the migration utility (startup
    configuration, [processUserToClerk], [main]) and the cleanup utility
    (its own startup guard and [main]).  Both are embedded below as pure
    functions that thread an explicit world: the identity provider is a
    state machine answering each call, sleeping and file appends are
    recorded in a trace of events.

    Conventions.
    - [process.env] is a finite map from names to strings (the state after
      dotenv's [config()] has run).
    - A JavaScript number produced by [parseInt] is [NaN] or an integer.
      Integers are exact here; the rounding of doubles above 2^53 is outside
      the model.
    - JSON numbers in the input files are integers.
    - Console and spinner output is not part of the world. *)

From Stdlib Require Import ZArith Ascii String List Bool Lia DecimalString DecimalPos.
From stdpp Require Import gmap strings list fin_maps.

Local Open Scope string_scope.
Local Open Scope list_scope.
Local Open Scope Z_scope.

(** ** JavaScript numbers and [parseInt] *)

Inductive JSNum : Type :=
| NaN
| Int (z : Z).

Definition ascii_in (c : ascii) (lo hi : ascii) : bool :=
  (nat_of_ascii lo <=? nat_of_ascii c)%nat && (nat_of_ascii c <=? nat_of_ascii hi)%nat.

(** Value of [c] as a digit of radix [R] (10 or 16), if it is one. *)
Definition digit_val (R : Z) (c : ascii) : option Z :=
  let n := Z.of_nat (nat_of_ascii c) in
  let d :=
    if ascii_in c "0" "9" then Some (n - 48)
    else if ascii_in c "a" "z" then Some (n - 97 + 10)
    else if ascii_in c "A" "Z" then Some (n - 65 + 10)
    else None in
  match d with
  | Some v => if v <? R then Some v else None
  | None => None
  end.

(** White space skipped by [parseInt]: TAB, LF, VT, FF, CR and SPACE (the
    one-byte members of the ECMAScript [WhiteSpace] and [LineTerminator]
    classes). *)
Definition is_space (c : ascii) : bool :=
  let n := nat_of_ascii c in
  ((9 <=? n) && (n <=? 13) || (n =? 32))%nat.

Fixpoint trim_start (s : string) : string :=
  match s with
  | String c s' => if is_space c then trim_start s' else s
  | EmptyString => s
  end.

(** The longest prefix of [s] made of radix-[R] digits. *)
Fixpoint digits_prefix (R : Z) (s : string) : list Z :=
  match s with
  | String c s' =>
      match digit_val R c with
      | Some d => d :: digits_prefix R s'
      | None => []
      end
  | EmptyString => []
  end.

Definition math_int (R : Z) (ds : list Z) : Z :=
  fold_left (fun acc d => acc * R + d) ds 0.

Definition strip_sign (s : string) : Z * string :=
  match s with
  | String "-" s' => (-1, s')
  | String "+" s' => (1, s')
  | _ => (1, s)
  end.

Definition strip_hex_prefix (s : string) : Z * string :=
  match s with
  | String "0" (String "x" s') => (16, s')
  | String "0" (String "X" s') => (16, s')
  | _ => (10, s)
  end.

(** [parseInt(s)] with no radix argument.  The result is the exact integer
    read; the double the code gets agrees with it as long as its absolute
    value is at most 2^53 - 1. *)
Definition parseInt (s : string) : JSNum :=
  let '(sign, s1) := strip_sign (trim_start s) in
  let '(R, s2) := strip_hex_prefix s1 in
  match digits_prefix R s2 with
  | [] => NaN
  | ds => Int (sign * math_int R ds)
  end.

(** ** [String.prototype.split] with a one-character separator *)

Fixpoint split (sep : ascii) (s : string) : list string :=
  match s with
  | EmptyString => [EmptyString]
  | String c s' =>
      if Ascii.eqb c sep then EmptyString :: split sep s'
      else match split sep s' with
           | seg :: segs => String c seg :: segs
           | [] => [String c EmptyString]
           end
  end.

(** [segs.join(sep)] on strings, the inverse of [split]. *)
Fixpoint join (sep : string) (segs : list string) : string :=
  match segs with
  | [] => ""
  | [seg] => seg
  | seg :: rest => (seg ++ sep ++ join sep rest)%string
  end.

(** The decimal digits of [d], most significant first. *)
Fixpoint uint_digits (d : Decimal.uint) : list Z :=
  match d with
  | Decimal.Nil => []
  | Decimal.D0 d' => 0 :: uint_digits d'
  | Decimal.D1 d' => 1 :: uint_digits d'
  | Decimal.D2 d' => 2 :: uint_digits d'
  | Decimal.D3 d' => 3 :: uint_digits d'
  | Decimal.D4 d' => 4 :: uint_digits d'
  | Decimal.D5 d' => 5 :: uint_digits d'
  | Decimal.D6 d' => 6 :: uint_digits d'
  | Decimal.D7 d' => 7 :: uint_digits d'
  | Decimal.D8 d' => 8 :: uint_digits d'
  | Decimal.D9 d' => 9 :: uint_digits d'
  end.

(** A text that cannot be taken for the rest of a hexadecimal prefix when
    it follows a single zero. *)
Definition not_hex_tail (tail : string) : Prop :=
  forall rest, tail <> String "x" rest /\ tail <> String "X" rest.

(** [key.split("_")[1]]; [None] stands for [undefined]. *)
Definition second_segment (key : string) : option string :=
  split "_" key !! 1%nat.

(** [a ?? b] on a possibly undefined environment entry. *)
Definition nullish (a : option string) (b : string) : string :=
  match a with
  | Some v => v
  | None => b
  end.

Infix "??" := nullish (at level 45, left associativity).

(** ** JSON values *)

#[warnings="-register-all"]
Inductive JSValue : Type :=
| JNull
| JBool (b : bool)
| JNum (n : Z)
| JStr (s : string)
| JArr (elems : list JSValue)
| JObj (fields : list (string * JSValue)).

(** An object read from a JSON file; an absent property reads as
    [undefined], which is [None]. *)
Abbreviation JSObject := (gmap string JSValue).

Definition truthy (v : JSValue) : bool :=
  match v with
  | JNull => false
  | JBool b => b
  | JNum n => negb (n =? 0)
  | JStr s => negb (String.eqb s "")
  | JArr _ => true
  | JObj _ => true
  end.

Definition Z_to_string (n : Z) : string :=
  NilZero.string_of_int (Z.to_int n).

(** [String(v)].  Arrays are joined with commas, [null] elements print as
    the empty string.  Integers print all their digits, as JavaScript does
    below 10^21. *)
Fixpoint to_String (v : JSValue) : string :=
  match v with
  | JNull => "null"
  | JBool true => "true"
  | JBool false => "false"
  | JNum n => Z_to_string n
  | JStr s => s
  | JArr elems =>
      let elem_String e :=
        match e with
        | JNull => ""
        | _ => to_String e
        end in
      (fix join (l : list JSValue) : string :=
         match l with
         | [] => ""
         | [e] => elem_String e
         | e :: l' => (elem_String e ++ "," ++ join l')%string
         end) elems
  | JObj _ => "[object Object]"
  end.

(** [a === b] for two values read from different JSON documents: primitives
    compare by value, arrays and objects are distinct references. *)
Definition strict_eq (a b : option JSValue) : bool :=
  match a, b with
  | None, None => true
  | Some JNull, Some JNull => true
  | Some (JBool x), Some (JBool y) => Bool.eqb x y
  | Some (JNum x), Some (JNum y) => x =? y
  | Some (JStr x), Some (JStr y) => String.eqb x y
  | _, _ => false
  end.

(** [l.slice(k)]: [NaN] counts as 0, a negative [k] counts from the end. *)
Definition slice {A} (k : JSNum) (l : list A) : list A :=
  match k with
  | NaN => l
  | Int z =>
      let len := Z.of_nat (length l) in
      if z <? 0 then drop (Z.to_nat (Z.max (len + z) 0)) l
      else drop (Z.to_nat (Z.min z len)) l
  end.


(** [!key] for a possibly undefined string: undefined and the empty string
    are falsy. *)
Definition falsy_key (k : option string) : bool :=
  match k with
  | None => true
  | Some s => String.eqb s ""
  end.

(** A rejection thrown by the provider's client: [status] is the numeric
    [status] property of the thrown value, when it has one. *)
Record ClerkError : Type := mkClerkError {
  status : option Z;
  detail : string
}.

(** ** The migration utility *)

Module Migration.

Inductive HashingAlgorithms : Type :=
| argon2i
| argon2id
| bcrypt
| md5
| pbkdf2Sha256
| pbkdf2Sha256Django
| pbkdf2Sha1
| scryptFirebase.

Definition hasher_value (h : HashingAlgorithms) : string :=
  match h with
  | argon2i => "argon2i"
  | argon2id => "argon2id"
  | bcrypt => "bcrypt"
  | md5 => "md5"
  | pbkdf2Sha256 => "pbkdf2_sha256"
  | pbkdf2Sha256Django => "pbkdf2_sha256_django"
  | pbkdf2Sha1 => "pbkdf2_sha1"
  | scryptFirebase => "scrypt_firebase"
  end.

Definition all_hashers : list HashingAlgorithms :=
  [argon2i; argon2id; bcrypt; md5; pbkdf2Sha256; pbkdf2Sha256Django;
   pbkdf2Sha1; scryptFirebase].

(** [z.nativeEnum(HashingAlgorithms).parse]: the member whose value is the
    input, or a thrown ZodError ([None]). *)
Definition hasherSchema_parse (s : string) : option HashingAlgorithms :=
  find (fun h => String.eqb (hasher_value h) s) all_hashers.

Record Config : Type := mkConfig {
  SECRET_KEY : string;
  DELAY : JSNum;
  RETRY_DELAY : JSNum;
  IMPORT_TO_DEV : string;
  OFFSET : JSNum;
  PASSWORD_HASHER : HashingAlgorithms
}.

Inductive StartupError : Type :=
| InvalidPasswordHasher
| SecretKeyRequired
| DevelopmentInstanceKey.

Inductive Startup : Type :=
| Refused (e : StartupError)
| Started (cfg : Config).

(** [a !== "live"] where [a] may be undefined. *)
Definition not_live (a : option string) : bool :=
  match a with
  | Some s => negb (String.eqb s "live")
  | None => true
  end.

(** The module-level statements of the script, lines 22 to 41, in order. *)
Definition startup (env : gmap string string) : Startup :=
  let secret_key := env !! "CLERK_SECRET_KEY" in
  let delay := parseInt (env !! "DELAY_MS" ?? "1_000") in
  let retry_delay := parseInt (env !! "RETRY_DELAY_MS" ?? "10_000") in
  let import_to_dev := env !! "IMPORT_TO_DEV_INSTANCE" ?? "false" in
  let offset := parseInt (env !! "OFFSET" ?? "0") in
  match hasherSchema_parse (env !! "PASSWORD_HASHER" ?? hasher_value bcrypt) with
  | None => Refused InvalidPasswordHasher
  | Some password_hasher =>
      if falsy_key secret_key then Refused SecretKeyRequired
      else
        let key := secret_key ?? "" in
        if not_live (second_segment key) && String.eqb import_to_dev "false"
        then Refused DevelopmentInstanceKey
        else Started (mkConfig key delay retry_delay import_to_dev offset
                               password_hasher)
  end.

Definition refuses (env : gmap string string) : bool :=
  match startup env with
  | Refused _ => true
  | Started _ => false
  end.

(** The validated record, [z.infer<typeof userSchema>]. *)
Record User : Type := mkUser {
  userId : string;
  email : string;
  firstName : option string;
  lastName : option string;
  password : option string;
  phoneNumber : option (list string)
}.

(** Argument of [clerkClient.users.createUser]; [None] is an absent
    property. *)
Record CreateParams : Type := mkCreateParams {
  externalId : string;
  emailAddress : list string;
  cp_firstName : option string;
  cp_lastName : option string;
  cp_phoneNumber : option (list string);
  passwordDigest : option string;
  passwordHasher : option HashingAlgorithms;
  skipPasswordRequirement : option bool
}.

Inductive CreateResult : Type :=
| Created
| Rejected (e : ClerkError).

(** What the [try] block of [processUserToClerk] can throw: a ZodError
    (with the properties of the record its issues are about, each named
    once) or a rejection of the provider. *)
Inductive Thrown : Type :=
| ZodError (issues : list string)
| ClerkThrown (e : ClerkError).

Definition error_status (t : Thrown) : option Z :=
  match t with
  | ZodError _ => None
  | ClerkThrown e => status e
  end.

(** The payload [{ userId: userData.userId, ...error }].  Neither kind of
    thrown value has a [userId] property of its own, so the spread leaves
    the first property in place. *)
Record LogEntry : Type := mkLogEntry {
  log_userId : option JSValue;
  log_error : Thrown
}.

Inductive Event : Type :=
| EReadFile (name : string)
| ESleep (ms : JSNum)
| ECreateUser (p : CreateParams)
| EAppendLog (entry : LogEntry).

(** The collaborators the script calls into: the identity provider, a
    state machine that answers each create call, and the e-mail format
    test of the schema library. *)
Class Collaborators : Type := {
  Sink : Type;
  users_createUser : CreateParams -> Sink -> CreateResult * Sink;
  is_email : string -> bool
}.

Section Driver.

Context `{Collaborators}.

(** Module-level counters, the provider, and everything done so far. *)
Record World : Type := mkWorld {
  migrated : nat;
  alreadyExists : nat;
  sink : Sink;
  trace : list Event
}.

Definition emit (ev : Event) (w : World) : World :=
  mkWorld (migrated w) (alreadyExists w) (sink w) (trace w ++ [ev])%list.

Definition with_sink (s : Sink) (w : World) : World :=
  mkWorld (migrated w) (alreadyExists w) s (trace w).

Definition incr_migrated (w : World) : World :=
  mkWorld (S (migrated w)) (alreadyExists w) (sink w) (trace w).

Definition incr_alreadyExists (w : World) : World :=
  mkWorld (migrated w) (S (alreadyExists w)) (sink w) (trace w).

(** *** [userSchema] *)

Definition zod_string (v : option JSValue) : option string :=
  match v with
  | Some (JStr s) => Some s
  | _ => None
  end.

Definition zod_email (v : option JSValue) : option string :=
  match v with
  | Some (JStr s) => if is_email s then Some s else None
  | _ => None
  end.

Definition zod_string_array (v : option JSValue) : option (list string) :=
  match v with
  | Some (JArr elems) => mapM (fun e => zod_string (Some e)) elems
  | _ => None
  end.

Definition zod_optional {A} (check : option JSValue -> option A)
    (v : option JSValue) : option (option A) :=
  match v with
  | None => Some None
  | Some _ => Some <$> check v
  end.

Definition issue {A} (path : string) (r : option A) : list string :=
  match r with
  | Some _ => []
  | None => [path]
  end.

(** [userSchema.safeParse(userData)]: the parsed record, or the error as
    the list of the properties that have an issue. *)
Definition userSchema_safeParse (userData : JSObject) : list string + User :=
  let r_userId := zod_string (userData !! "userId") in
  let r_email := zod_email (userData !! "email") in
  let r_firstName := zod_optional zod_string (userData !! "firstName") in
  let r_lastName := zod_optional zod_string (userData !! "lastName") in
  let r_password := zod_optional zod_string (userData !! "password") in
  let r_phoneNumber := zod_optional zod_string_array (userData !! "phoneNumber") in
  match r_userId, r_email, r_firstName, r_lastName, r_password, r_phoneNumber with
  | Some a, Some b, Some c, Some d, Some e, Some f => inr (mkUser a b c d e f)
  | _, _, _, _, _, _ =>
      inl (issue "userId" r_userId ++ issue "email" r_email
           ++ issue "firstName" r_firstName ++ issue "lastName" r_lastName
           ++ issue "password" r_password
           ++ issue "phoneNumber" r_phoneNumber)%list
  end.

Variable cfg : Config.

(** [userData.password ? ... : ...]: an absent or empty digest is falsy. *)
Definition has_password (userData : User) : bool :=
  match password userData with
  | Some s => negb (String.eqb s "")
  | None => false
  end.

(** The argument [createUser] hands to the provider. *)
Definition createUser (userData : User) : CreateParams :=
  if has_password userData then
    mkCreateParams (userId userData) [email userData] (firstName userData)
      (lastName userData) (phoneNumber userData) (password userData)
      (Some (PASSWORD_HASHER cfg)) None
  else
    mkCreateParams (userId userData) [email userData] (firstName userData)
      (lastName userData) None None None (Some true).

Definition appendLog (payload : LogEntry) (w : World) : World :=
  emit (EAppendLog payload) w.

Definition cooldown (w : World) : World := emit (ESleep (DELAY cfg)) w.

Definition rateLimitCooldown (w : World) : World :=
  emit (ESleep (RETRY_DELAY cfg)) w.

Definition status_is (t : Thrown) (code : Z) : bool :=
  match error_status t with
  | Some n => n =? code
  | None => false
  end.

(** Result of running with a bound on the number of attempts: the call
    returned, or the bound was reached while still retrying. *)
Inductive Res : Type :=
| Done (w : World)
| Spinning (w : World).

Definition world_of (r : Res) : World :=
  match r with
  | Done w => w
  | Spinning w => w
  end.

(** The [try] block: validation, then the create call. *)
Definition attempt (userData : JSObject) (w : World) : option Thrown * World :=
  match userSchema_safeParse userData with
  | inl err => (Some (ZodError err), w)
  | inr data =>
      let p := createUser data in
      match users_createUser p (sink w) with
      | (Created, s) => (None, with_sink s (emit (ECreateUser p) w))
      | (Rejected e, s) =>
          (Some (ClerkThrown e), with_sink s (emit (ECreateUser p) w))
      end
  end.

(** [processUserToClerk]; [fuel] bounds the number of attempts, the source
    retries without bound. *)
Fixpoint processUserToClerk (fuel : nat) (userData : JSObject) (w : World) : Res :=
  match fuel with
  | O => Spinning w
  | S fuel' =>
      match attempt userData w with
      | (None, w1) => Done (incr_migrated w1)
      | (Some error, w1) =>
          let payload := mkLogEntry (userData !! "userId") error in
          if status_is error 422 then
            Done (incr_alreadyExists (appendLog payload w1))
          else if status_is error 429 then
            processUserToClerk fuel' userData (rateLimitCooldown w1)
          else Done (appendLog payload w1)
      end
  end.

(** *** [main] *)

Definition merge_user (parsedUserPhoneNumbers : list JSObject)
    (user : JSObject) : JSObject :=
  let userWithPhoneNumber :=
    find (fun userPhoneNumber =>
            strict_eq (userPhoneNumber !! "id") (user !! "userId"))
         parsedUserPhoneNumbers in
  match userWithPhoneNumber with
  | Some found =>
      match found !! "phone" with
      | Some phone =>
          if truthy phone
          then <["phoneNumber" := JArr [JStr (to_String phone)]]> user
          else user
      | None => user
      end
  | None => user
  end.

Definition parsedUsersWithPhoneNumbers
    (parsedUserData parsedUserPhoneNumbers : list JSObject) : list JSObject :=
  map (merge_user parsedUserPhoneNumbers) parsedUserData.

(** The [for ... of offsetUsers] loop. *)
Fixpoint for_each_user (fuel : nat) (offsetUsers : list JSObject) (w : World) : Res :=
  match offsetUsers with
  | [] => Done w
  | userData :: rest =>
      match processUserToClerk fuel userData (cooldown w) with
      | Done w' => for_each_user fuel rest w'
      | Spinning w' => Spinning w'
      end
  end.

Inductive Outcome : Type :=
| StartupThrew (e : StartupError)
| MainThrew (w : World)
| MainSpinning (w : World)
| MainDone (w : World).

(** [main()].  [files name] is [JSON.parse(fs.readFileSync(name))], [None]
    when reading or parsing throws. *)
Definition main (fuel : nat) (argv : list string)
    (files : string -> option (list JSObject)) (w : World) : Outcome :=
  let inputFileName := argv !! 2%nat ?? "users.json" in
  let phoneInputFileName := argv !! 3%nat ?? "users-phone-numbers.json" in
  let w1 := emit (EReadFile inputFileName) w in
  match files inputFileName with
  | None => MainThrew w1
  | Some parsedUserData =>
      let w2 := emit (EReadFile phoneInputFileName) w1 in
      match files phoneInputFileName with
      | None => MainThrew w2
      | Some parsedUserPhoneNumbers =>
          let offsetUsers :=
            slice (OFFSET cfg)
              (parsedUsersWithPhoneNumbers parsedUserData parsedUserPhoneNumbers) in
          match for_each_user fuel offsetUsers w2 with
          | Done w3 => MainDone w3
          | Spinning w3 => MainSpinning w3
          end
      end
  end.

End Driver.

(** The whole script: the module-level statements, then [main()] from
    zero counters and an empty trace. *)
Definition program `{Collaborators} (fuel : nat) (env : gmap string string)
    (argv : list string) (files : string -> option (list JSObject))
    (s0 : Sink) : Outcome :=
  match startup env with
  | Refused e => StartupThrew e
  | Started cfg => main cfg fuel argv files (mkWorld 0 0 s0 [])
  end.

Definition events `{Collaborators} (o : Outcome) : list Event :=
  match o with
  | StartupThrew _ => []
  | MainThrew w => trace w
  | MainSpinning w => trace w
  | MainDone w => trace w
  end.

(** *** Vocabulary of the statements about the driver *)

Section DriverSpec.

Context `{Collaborators}.
Variable cfg : Config.

(** The provider's state after rejecting [k] consecutive submissions of
    [p] with status 429, if it does reject them so. *)
Fixpoint rate_limited (k : nat) (p : CreateParams) (s : Sink) : option Sink :=
  match k with
  | O => Some s
  | S k' =>
      match users_createUser p s with
      | (Rejected e, s') =>
          if status_is (ClerkThrown e) 429 then rate_limited k' p s' else None
      | (Created, _) => None
      end
  end.

(** What [k] rate-limited attempts leave in the trace. *)
Definition retry_events (k : nat) (p : CreateParams) : list Event :=
  concat (replicate k [ECreateUser p; ESleep (RETRY_DELAY cfg)]).

(** The world after [k] rate-limited attempts on [p] that leave the
    provider in state [sk]. *)
Definition after_retries (k : nat) (p : CreateParams) (sk : Sink) (w : World) : World :=
  mkWorld (migrated w) (alreadyExists w) sk (trace w ++ retry_events k p).

(** An event of the processing of [userData] after its pacing delay: a
    create call for this record, a rate-limit cooldown, or a log entry
    carrying this record's [userId]. *)
Definition about (userData : JSObject) (ev : Event) : Prop :=
  match ev with
  | EReadFile _ => False
  | ESleep ms => ms = RETRY_DELAY cfg
  | ECreateUser p =>
      exists data, userSchema_safeParse userData = inr data /\ p = createUser cfg data
  | EAppendLog entry => log_userId entry = userData !! "userId"
  end.

(** [Segmented users evs]: [evs] is one segment per record of [users], in
    order; each segment is the pacing delay followed by events about that
    record only. *)
Inductive Segmented : list JSObject -> list Event -> Prop :=
| Segmented_nil : Segmented [] []
| Segmented_cons userData rest seg evs :
    Forall (about userData) seg ->
    Segmented rest evs ->
    Segmented (userData :: rest) (ESleep (DELAY cfg) :: seg ++ evs)%list.

(** [handled userData seg]: [seg] is what a finished record leaves after
    its pacing delay.  A record that fails validation leaves its log entry
    and nothing else; a record that parses leaves some rate-limited
    attempts, then one more create call for it, which either is accepted or
    is rejected and logged. *)
Definition handled (userData : JSObject) (seg : list Event) : Prop :=
  match userSchema_safeParse userData with
  | inl err =>
      seg = [EAppendLog (mkLogEntry (userData !! "userId") (ZodError err))]
  | inr data =>
      let p := createUser cfg data in
      exists k,
        seg = retry_events k p ++ [ECreateUser p]
        \/ exists e,
             seg = retry_events k p
                   ++ [ECreateUser p;
                       EAppendLog (mkLogEntry (userData !! "userId") (ClerkThrown e))]
  end.

(** [Submitted users evs]: [evs] is one segment per record of [users], in
    order; each segment is the pacing delay followed by what handling that
    record leaves. *)
Inductive Submitted : list JSObject -> list Event -> Prop :=
| Submitted_nil : Submitted [] []
| Submitted_cons userData rest seg evs :
    handled userData seg ->
    Submitted rest evs ->
    Submitted (userData :: rest) (ESleep (DELAY cfg) :: seg ++ evs)%list.

(** The first auxiliary record whose [id] is the record's [userId]. *)
Definition first_match (phones : list JSObject) (user found : JSObject) : Prop :=
  exists before after,
    phones = (before ++ found :: after)%list
    /\ Forall (fun p => strict_eq (p !! "id") (user !! "userId") = false) before
    /\ strict_eq (found !! "id") (user !! "userId") = true.

Definition truthy_phone (found : JSObject) (phone : JSValue) : Prop :=
  found !! "phone" = Some phone /\ truthy phone = true.

(** The counters are as they were. *)
Definition counters_kept (w w' : World) : Prop :=
  migrated w' = migrated w /\ alreadyExists w' = alreadyExists w.

(** At most one counter moved, and by one. *)
Definition counters_step (w w' : World) : Prop :=
  counters_kept w w'
  \/ (migrated w' = S (migrated w) /\ alreadyExists w' = alreadyExists w)
  \/ (migrated w' = migrated w /\ alreadyExists w' = S (alreadyExists w)).

(** What the merge does to one record: when the first auxiliary record
    with the record's id has a truthy phone, [phoneNumber] becomes the
    one-element array of that phone as a string and every other property is
    kept; otherwise the record is returned as it is. *)
Definition merge_spec (phones : list JSObject) (user out : JSObject) : Prop :=
  (exists found phone,
      first_match phones user found
      /\ truthy_phone found phone
      /\ out !! "phoneNumber" = Some (JArr [JStr (to_String phone)])
      /\ forall k, k <> "phoneNumber" -> out !! k = user !! k)
  \/ (out = user
      /\ ~ exists found phone,
            first_match phones user found /\ truthy_phone found phone).

End DriverSpec.

(** *** Reading a trace *)

(** The payloads appended to the audit log, in order. *)
Definition log_entries (evs : list Event) : list LogEntry :=
  flat_map (fun ev => match ev with EAppendLog entry => [entry] | _ => [] end) evs.

(** The arguments of the create calls, in order. *)
Definition create_calls (evs : list Event) : list CreateParams :=
  flat_map (fun ev => match ev with ECreateUser p => [p] | _ => [] end) evs.

Definition JSNum_eqb (a b : JSNum) : bool :=
  match a, b with
  | NaN, NaN => true
  | Int x, Int y => x =? y
  | _, _ => false
  end.

(** The sleeps of [evs] whose duration is [ms]. *)
Definition sleeps_of (ms : JSNum) (evs : list Event) : nat :=
  length (List.filter
            (fun ev => match ev with ESleep d => JSNum_eqb d ms | _ => false end)
            evs).

(** The log entries of [evs] written for a rejection of status 422. *)
Definition logged_conflicts (evs : list Event) : nat :=
  length (List.filter
            (fun entry =>
               match error_status (log_error entry) with
               | Some n => n =? 422
               | None => false
               end)
            (log_entries evs)).

(** A provider that answers every create call with status 429. *)
Definition always_limited : Collaborators := {|
  Sink := unit;
  users_createUser := fun _ s => (Rejected (mkClerkError (Some 429) "slow down"), s);
  is_email := fun _ => true
|}.

(** The six paths of [userSchema]. *)
Definition schema_paths : list string :=
  ["userId"; "email"; "firstName"; "lastName"; "password"; "phoneNumber"].

(** *** A scripted provider, for concrete runs

    Its state is the list of answers still to give; once the script is
    exhausted every create call succeeds.  An address is taken for an
    e-mail address when it contains an at sign. *)

Definition scripted : Collaborators := {|
  Sink := list CreateResult;
  users_createUser := fun _ s =>
    match s with
    | [] => (Created, [])
    | r :: s' => (r, s')
    end;
  is_email := fun s =>
    match String.index 0 "@" s with
    | Some _ => true
    | None => false
    end
|}.

Definition sample_env : gmap string string :=
  {[ "CLERK_SECRET_KEY" := "sk_test_abc" ]}.

Definition sample_cfg : Config :=
  mkConfig "sk_live_abc" (Int 1) (Int 10) "false" (Int 0) bcrypt.

Definition sample_user (uid : string) : JSObject :=
  <["userId" := JStr uid]> {[ "email" := JStr "a@example.org" ]}.

Definition sample_world (s : list CreateResult) : @World scripted :=
  @mkWorld scripted 0 0 s [].

Definition rejection (code : Z) : ClerkError := mkClerkError (Some code) "".

(** Two records in [users.json], no phone numbers. *)
Definition sample_files (name : string) : option (list JSObject) :=
  if String.eqb name "users.json"
  then Some [sample_user "u0"; sample_user "u1"]
  else Some [].

Definition sample_params (uid : string) : CreateParams :=
  mkCreateParams uid ["a@example.org"] None None None None None (Some true).

End Migration.

(** ** The cleanup utility *)

Module Cleanup.

Inductive StartupError : Type :=
| SecretKeyRequired
| ProductionKey.

Inductive Startup : Type :=
| Refused (e : StartupError)
| Started (key : string).

(** [a === "live"] where [a] may be undefined. *)
Definition is_live (a : option string) : bool :=
  match a with
  | Some s => String.eqb s "live"
  | None => false
  end.

Definition startup (env : gmap string string) : Startup :=
  let secret_key := env !! "CLERK_SECRET_KEY" in
  if falsy_key secret_key then Refused SecretKeyRequired
  else
    let key := secret_key ?? "" in
    if is_live (second_segment key) then Refused ProductionKey
    else Started key.

Record ClerkUser : Type := mkClerkUser { id : string }.

(** The payloads [{ userId, deleted: true }] and
    [{ userId, error, deleted: false }]. *)
Inductive LogEntry : Type :=
| LogDeleted (userId : string)
| LogNotDeleted (userId : string) (error : ClerkError).

Inductive Event : Type :=
| EGetUserList
| EDeleteUser (userId : string)
| EAppendLog (entry : LogEntry).

Class Collaborators : Type := {
  Sink : Type;
  users_getUserList : Sink -> (ClerkError + list ClerkUser) * Sink;
  users_deleteUser : string -> Sink -> option ClerkError * Sink
}.

Section Driver.

Context `{Collaborators}.

Record World : Type := mkWorld {
  usersDeleted : nat;
  sink : Sink;
  trace : list Event
}.

Definition emit (ev : Event) (w : World) : World :=
  mkWorld (usersDeleted w) (sink w) (trace w ++ [ev])%list.

Definition with_sink (s : Sink) (w : World) : World :=
  mkWorld (usersDeleted w) s (trace w).

Definition incr_usersDeleted (w : World) : World :=
  mkWorld (usersDeleted w + 1) (sink w) (trace w).

Definition appendLog (payload : LogEntry) (w : World) : World :=
  emit (EAppendLog payload) w.

(** [main] returned, or an error escaped it. *)
Inductive Res : Type :=
| Returned (w : World)
| Threw (error : ClerkError) (w : World).

(** The [for ... of clerkUsers] loop. *)
Fixpoint delete_each (clerkUsers : list ClerkUser) (w : World) : Res :=
  match clerkUsers with
  | [] => Returned w
  | clerkUser :: rest =>
      let w1 := emit (EDeleteUser (id clerkUser)) w in
      match users_deleteUser (id clerkUser) (sink w) with
      | (None, s) =>
          delete_each rest
            (appendLog (LogDeleted (id clerkUser))
               (incr_usersDeleted (with_sink s w1)))
      | (Some error, s) =>
          Threw error
            (appendLog (LogNotDeleted (id clerkUser) error) (with_sink s w1))
      end
  end.

Definition main (w : World) : Res :=
  let w1 := emit EGetUserList w in
  match users_getUserList (sink w) with
  | (inl error, s) => Threw error (with_sink s w1)
  | (inr clerkUsers, s) => delete_each clerkUsers (with_sink s w1)
  end.

(** The events of deleting one user successfully. *)
Definition deleted_events (clerkUser : ClerkUser) : list Event :=
  [EDeleteUser (id clerkUser); EAppendLog (LogDeleted (id clerkUser))].

(** The provider's state after it has deleted [clerkUsers] one after the
    other from state [s], when it rejects none of these deletions. *)
Fixpoint deleted_all (clerkUsers : list ClerkUser) (s : Sink) : option Sink :=
  match clerkUsers with
  | [] => Some s
  | clerkUser :: rest =>
      match users_deleteUser (id clerkUser) s with
      | (None, s') => deleted_all rest s'
      | (Some _, _) => None
      end
  end.

End Driver.

Inductive Outcome `{Collaborators} : Type :=
| StartupThrew (e : StartupError)
| MainReturned (w : World)
| MainThrew (error : ClerkError) (w : World).

(** The whole script: the module-level statements, then [main()] from a
    zero counter and an empty trace. *)
Definition program `{Collaborators} (env : gmap string string) (s0 : Sink) : Outcome :=
  match startup env with
  | Refused e => StartupThrew e
  | Started _ =>
      match main (mkWorld 0 s0 []) with
      | Returned w => MainReturned w
      | Threw error w => MainThrew error w
      end
  end.

Definition events `{Collaborators} (o : Outcome) : list Event :=
  match o with
  | StartupThrew _ => []
  | MainReturned w => trace w
  | MainThrew _ w => trace w
  end.

Definition refuses (env : gmap string string) : bool :=
  match startup env with
  | Refused _ => true
  | Started _ => false
  end.

Definition world_of `{Collaborators} (r : Res) : World :=
  match r with
  | Returned w => w
  | Threw _ w => w
  end.

(** The number of [deleted: true] payloads in [evs], and of
    [deleted: false] ones. *)
Definition logged_deleted (evs : list Event) : nat :=
  length (List.filter
            (fun ev => match ev with EAppendLog (LogDeleted _) => true | _ => false end)
            evs).

Definition logged_failed (evs : list Event) : nat :=
  length (List.filter
            (fun ev => match ev with EAppendLog (LogNotDeleted _ _) => true | _ => false end)
            evs).

(** The users named by the delete calls of [evs], in order. *)
Definition delete_calls (evs : list Event) : list string :=
  flat_map (fun ev => match ev with EDeleteUser uid => [uid] | _ => [] end) evs.

(** A provider holding the users it lists; deleting the user named by
    [poison] is rejected, every other delete succeeds. *)
Definition poisoned (poison : string) : Collaborators := {|
  Sink := list ClerkUser;
  users_getUserList := fun s => (inr s, s);
  users_deleteUser := fun uid s =>
    if String.eqb uid poison
    then (Some (mkClerkError (Some 500) "cannot delete"), s)
    else (None, filter (fun u => negb (String.eqb (id u) uid)) s)
|}.

End Cleanup.

(** * Properties *)

Module MigrationFacts.

Import Migration.

(** ** Startup *)

Lemma not_live_spec (a : option string) :
  not_live a = true <-> a <> Some "live".
Proof.
  destruct a as [s|]; simpl.
  - rewrite negb_true_iff, String.eqb_neq. split; congruence.
  - split; [discriminate | reflexivity].
Qed.

Lemma falsy_key_spec (k : option string) :
  falsy_key k = false <-> exists key, k = Some key /\ key <> "".
Proof.
  destruct k as [s|]; simpl.
  - rewrite String.eqb_neq. split.
    + intros Hs. exists s. auto.
    + intros (key & [= ->] & Hne). exact Hne.
  - split; [discriminate | intros (key & Hk & _); discriminate].
Qed.

(** What [startup] does once the hasher parses and the key is present. *)
Lemma startup_guard (env : gmap string string) (key : string) (h : HashingAlgorithms) :
  env !! "CLERK_SECRET_KEY" = Some key ->
  key <> "" ->
  hasherSchema_parse (env !! "PASSWORD_HASHER" ?? hasher_value bcrypt) = Some h ->
  startup env =
    if not_live (second_segment key)
       && String.eqb (env !! "IMPORT_TO_DEV_INSTANCE" ?? "false") "false"
    then Refused DevelopmentInstanceKey
    else Started (mkConfig key
                    (parseInt (env !! "DELAY_MS" ?? "1_000"))
                    (parseInt (env !! "RETRY_DELAY_MS" ?? "10_000"))
                    (env !! "IMPORT_TO_DEV_INSTANCE" ?? "false")
                    (parseInt (env !! "OFFSET" ?? "0")) h).
Proof.
  intros Hkey Hne Hh. unfold startup. rewrite Hh, Hkey. simpl.
  apply String.eqb_neq in Hne. rewrite Hne. reflexivity.
Qed.

(** A credential that is not a production one, with
    [IMPORT_TO_DEV_INSTANCE] unset, never gets past the module-level
    statements. *)
Lemma startup_dev_key_unset (env : gmap string string) (key : string) :
  env !! "CLERK_SECRET_KEY" = Some key ->
  second_segment key <> Some "live" ->
  env !! "IMPORT_TO_DEV_INSTANCE" = None ->
  exists e, startup env = Refused e.
Proof.
  intros Hkey Hseg Himp. unfold startup. rewrite Hkey, Himp. simpl.
  destruct (hasherSchema_parse _); [| eauto].
  destruct (String.eqb key ""); [eauto |].
  apply not_live_spec in Hseg. rewrite Hseg. simpl. eauto.
Qed.

(** C1 (as the code has it): with [DELAY_MS] and [RETRY_DELAY_MS] unset, a
    startup that succeeds configures a pacing interval of 1 millisecond and
    a rate-limit cooldown of 10 milliseconds, because [parseInt] stops at
    the underscore of the default strings [1_000] and [10_000]. *)
Theorem C1_default_delays (env : gmap string string) (cfg : Config) :
  env !! "DELAY_MS" = None ->
  env !! "RETRY_DELAY_MS" = None ->
  startup env = Started cfg ->
  DELAY cfg = Int 1 /\ RETRY_DELAY cfg = Int 10.
Proof.
  intros Hd Hr. unfold startup. rewrite Hd, Hr.
  destruct (hasherSchema_parse _); [| discriminate].
  destruct (falsy_key _); [discriminate |].
  destruct (_ && _); [discriminate |].
  intros [= <-]. split; reflexivity.
Qed.

Lemma C1_default_delays_witness :
  DELAY sample_cfg = Int 1 /\ RETRY_DELAY sample_cfg = Int 10.
Proof.
  apply (C1_default_delays {[ "CLERK_SECRET_KEY" := "sk_live_abc" ]} sample_cfg);
    reflexivity.
Defined.

(** C2 (counterexample): the production credential [sk_live_abc] with
    [IMPORT_TO_DEV_INSTANCE] unset starts, and [main] goes on to read the
    input file. *)
Lemma C2_live_key_starts :
  let env : gmap string string := {[ "CLERK_SECRET_KEY" := "sk_live_abc" ]} in
  second_segment "sk_live_abc" = Some "live"
  /\ env !! "IMPORT_TO_DEV_INSTANCE" = None
  /\ refuses env = false
  /\ @events scripted
       (@program scripted 1 env [] (fun _ => Some []) [])
     = [EReadFile "users.json"; EReadFile "users-phone-numbers.json"].
Proof. vm_compute. repeat split. Qed.

(** C2 (amended): with a credential whose second segment is not [live] and
    [IMPORT_TO_DEV_INSTANCE] unset, the script throws in its module-level
    statements; [main] never runs, so nothing is read, sent or logged. *)
Theorem C2_dev_key_refused_before_io `{Collaborators}
    (env : gmap string string) (key : string) (fuel : nat)
    (argv : list string) (files : string -> option (list JSObject)) (s0 : Sink) :
  env !! "CLERK_SECRET_KEY" = Some key ->
  second_segment key <> Some "live" ->
  env !! "IMPORT_TO_DEV_INSTANCE" = None ->
  (exists e, program fuel env argv files s0 = StartupThrew e)
  /\ events (program fuel env argv files s0) = [].
Proof.
  intros Hkey Hseg Himp.
  destruct (startup_dev_key_unset env key Hkey Hseg Himp) as [e He].
  unfold program. rewrite He. eauto.
Qed.

Lemma C2_dev_key_refused_before_io_witness :
  (exists e, @program scripted 5 sample_env [] (fun _ => Some []) []
             = StartupThrew e)
  /\ @events scripted (@program scripted 5 sample_env [] (fun _ => Some []) [])
     = [].
Proof.
  apply (@C2_dev_key_refused_before_io scripted sample_env "sk_test_abc");
    [reflexivity | vm_compute; discriminate | reflexivity].
Defined.

(** C3 (counterexample): a development credential with
    [IMPORT_TO_DEV_INSTANCE] set to [yes], which is not the string [true],
    is let through. *)
Lemma C3_dev_key_yes_starts :
  let env : gmap string string :=
    <["IMPORT_TO_DEV_INSTANCE" := "yes"]> {[ "CLERK_SECRET_KEY" := "sk_test_abc" ]} in
  second_segment "sk_test_abc" <> Some "live"
  /\ env !! "IMPORT_TO_DEV_INSTANCE" <> Some "true"
  /\ refuses env = false.
Proof. vm_compute. repeat split; discriminate. Qed.

(** C3 (amended): for a present, non-empty credential and a valid
    [PASSWORD_HASHER], the script refuses to start exactly when the
    credential is not a production one and [IMPORT_TO_DEV_INSTANCE] is
    unset or the string [false]. *)
Theorem C3_refuses_iff_dev_key_and_false (env : gmap string string) (key : string) :
  env !! "CLERK_SECRET_KEY" = Some key ->
  key <> "" ->
  is_Some (hasherSchema_parse (env !! "PASSWORD_HASHER" ?? hasher_value bcrypt)) ->
  refuses env = true
  <-> second_segment key <> Some "live"
      /\ env !! "IMPORT_TO_DEV_INSTANCE" ?? "false" = "false".
Proof.
  intros Hkey Hne [h Hh]. unfold refuses.
  rewrite (startup_guard env key h Hkey Hne Hh).
  rewrite <- not_live_spec, <- String.eqb_eq, <- andb_true_iff.
  destruct (_ && _); split; congruence.
Qed.

Lemma C3_refuses_iff_dev_key_and_false_witness :
  refuses sample_env = true
  <-> second_segment "sk_test_abc" <> Some "live"
      /\ sample_env !! "IMPORT_TO_DEV_INSTANCE" ?? "false" = "false".
Proof.
  apply (C3_refuses_iff_dev_key_and_false sample_env "sk_test_abc");
    [reflexivity | discriminate | vm_compute; eauto].
Defined.

(** ** Record merger *)

Lemma find_first_match (phones : list JSObject) (user found : JSObject) :
  find (fun p => strict_eq (p !! "id") (user !! "userId")) phones = Some found
  <-> first_match phones user found.
Proof.
  unfold first_match. induction phones as [|p phones IH]; simpl.
  - split; [discriminate |].
    intros (before & after & Heq & _). destruct before; discriminate.
  - destruct (strict_eq (p !! "id") (user !! "userId")) eqn:Hp.
    + split.
      * intros [= <-]. exists [], phones. repeat split; auto.
      * intros (before & after & Heq & Hbefore & Hfound).
        destruct before as [|q before]; simpl in Heq.
        -- congruence.
        -- injection Heq as <- _. inversion Hbefore; congruence.
    + rewrite IH. split.
      * intros (before & after & -> & Hbefore & Hfound).
        exists (p :: before), after. repeat split; auto.
      * intros (before & after & Heq & Hbefore & Hfound).
        destruct before as [|q before]; simpl in Heq.
        -- injection Heq as <- _. congruence.
        -- injection Heq as <- ->. inversion Hbefore; subst.
           exists before, after. repeat split; auto.
Qed.

Lemma first_match_unique (phones : list JSObject) (user f1 f2 : JSObject) :
  first_match phones user f1 -> first_match phones user f2 -> f1 = f2.
Proof. rewrite <- !find_first_match. congruence. Qed.

Lemma merge_user_spec (phones : list JSObject) (user : JSObject) :
  merge_spec phones user (merge_user phones user).
Proof.
  unfold merge_spec, merge_user.
  destruct (find _ phones) as [found|] eqn:Hfind.
  - apply find_first_match in Hfind.
    destruct (found !! "phone") as [phone|] eqn:Hphone.
    + destruct (truthy phone) eqn:Ht.
      * left. exists found, phone. unfold truthy_phone.
        repeat split; auto.
        -- apply lookup_insert_eq.
        -- intros k Hk. apply lookup_insert_ne. congruence.
      * right. split; [reflexivity |].
        intros (f & v & Hf & Hv & Htv).
        rewrite (first_match_unique _ _ _ _ Hf Hfind) in Hv. congruence.
    + right. split; [reflexivity |].
      intros (f & v & Hf & Hv & Htv).
      rewrite (first_match_unique _ _ _ _ Hf Hfind) in Hv. congruence.
  - right. split; [reflexivity |].
    intros (f & v & Hf & _). apply find_first_match in Hf. congruence.
Qed.

Example merge_phone_5551234 :
  let user : JSObject := sample_user "u1" in
  let aux : JSObject := <["id" := JStr "u1"]> {[ "phone" := JNum 5551234 ]} in
  parsedUsersWithPhoneNumbers [user] [aux]
  = [<["phoneNumber" := JArr [JStr "5551234"]]> user].
Proof. vm_compute. reflexivity. Qed.

(** C7 (counterexample): the first auxiliary record for [u1] has an empty
    phone and the second has the phone 5551234; the merge returns the
    record as it is, without [phoneNumber]. *)
Lemma C7_later_match_ignored :
  let user : JSObject := sample_user "u1" in
  let p0 : JSObject := <["id" := JStr "u1"]> {[ "phone" := JStr "" ]} in
  let p1 : JSObject := <["id" := JStr "u1"]> {[ "phone" := JNum 5551234 ]} in
  strict_eq (p1 !! "id") (user !! "userId") = true
  /\ truthy_phone p1 (JNum 5551234)
  /\ parsedUsersWithPhoneNumbers [user] [p0; p1] = [user]
  /\ user !! "phoneNumber" = None.
Proof. vm_compute. repeat split. Qed.

(** C7 (amended): the merge yields a sequence of the same length and order
    as the primary one; each output record is the input record unless the
    first auxiliary record whose id equals the record's [userId] has a truthy
    phone, in which case only [phoneNumber] changes, to the one-element array
    holding that phone as a string. *)
Theorem C7_merge_first_match (users phones : list JSObject) :
  Forall2 (merge_spec phones) users (parsedUsersWithPhoneNumbers users phones).
Proof.
  unfold parsedUsersWithPhoneNumbers.
  induction users as [|user users IH]; simpl; constructor.
  - apply merge_user_spec.
  - exact IH.
Qed.

(** ** One record *)

Section DriverFacts.

Context `{Collaborators}.
Variable cfg : Config.

Lemma status_is_code (e : ClerkError) (code : Z) :
  status e = Some code -> forall c, status_is (ClerkThrown e) c = (code =? c).
Proof. intros He c. unfold status_is. simpl. rewrite He. reflexivity. Qed.

Lemma attempt_invalid (userData : JSObject) (w : World) (err : list string) :
  userSchema_safeParse userData = inl err ->
  attempt cfg userData w = (Some (ZodError err), w).
Proof. intros Hp. unfold attempt. rewrite Hp. reflexivity. Qed.

Lemma attempt_valid (userData : JSObject) (w : World) (data : User) :
  userSchema_safeParse userData = inr data ->
  attempt cfg userData w =
    let p := createUser cfg data in
    let w1 := mkWorld (migrated w) (alreadyExists w)
                (users_createUser p (sink w)).2 (trace w ++ [ECreateUser p]) in
    match (users_createUser p (sink w)).1 with
    | Created => (None, w1)
    | Rejected e => (Some (ClerkThrown e), w1)
    end.
Proof.
  intros Hp. unfold attempt. rewrite Hp. simpl.
  destruct (users_createUser _ _) as [[|e] s]; reflexivity.
Qed.

Lemma retry_events_S (k : nat) (p : CreateParams) :
  retry_events cfg (S k) p
  = ECreateUser p :: ESleep (RETRY_DELAY cfg) :: retry_events cfg k p.
Proof. reflexivity. Qed.

(** Each rate-limited attempt costs one unit of fuel, a create call and a
    cooldown, and nothing else. *)
Lemma process_after_retries (k : nat) :
  forall (userData : JSObject) (data : User) (w : World) (sk : Sink) (fuel : nat),
    userSchema_safeParse userData = inr data ->
    rate_limited k (createUser cfg data) (sink w) = Some sk ->
    processUserToClerk cfg (k + fuel) userData w
    = processUserToClerk cfg fuel userData
        (after_retries cfg k (createUser cfg data) sk w).
Proof.
  induction k as [|k IH]; intros userData data w sk fuel Hp Hk.
  - simpl in Hk. injection Hk as <-. unfold after_retries, retry_events.
    simpl. rewrite app_nil_r. destruct w; reflexivity.
  - simpl in Hk.
    destruct (users_createUser (createUser cfg data) (sink w)) as [[|e] s1] eqn:Hc;
      [discriminate |].
    destruct (status_is (ClerkThrown e) 429) eqn:H429; [| discriminate].
    assert (H422 : status_is (ClerkThrown e) 422 = false).
    { unfold status_is in *. destruct (error_status _); [| reflexivity].
      apply Z.eqb_eq in H429. subst. reflexivity. }
    change (S k + fuel)%nat with (S (k + fuel)). cbn [processUserToClerk].
    rewrite (attempt_valid _ _ _ Hp). simpl. rewrite Hc. simpl.
    rewrite H422, H429.
    rewrite (IH userData data _ sk fuel Hp) by (simpl; exact Hk).
    f_equal. unfold after_retries, rateLimitCooldown, emit. simpl.
    rewrite retry_events_S, <- !app_assoc. reflexivity.
Qed.

(** The three ways an attempt ends a record. *)
Lemma process_created (userData : JSObject) (data : User) (w : World)
    (s' : Sink) (fuel : nat) :
  userSchema_safeParse userData = inr data ->
  users_createUser (createUser cfg data) (sink w) = (Created, s') ->
  processUserToClerk cfg (S fuel) userData w
  = Done (mkWorld (S (migrated w)) (alreadyExists w) s'
            (trace w ++ [ECreateUser (createUser cfg data)])).
Proof.
  intros Hp Hc. cbn [processUserToClerk].
  rewrite (attempt_valid _ _ _ Hp). simpl. rewrite Hc. reflexivity.
Qed.

Lemma process_rejected (userData : JSObject) (data : User) (w : World)
    (e : ClerkError) (s' : Sink) (fuel : nat) :
  userSchema_safeParse userData = inr data ->
  users_createUser (createUser cfg data) (sink w) = (Rejected e, s') ->
  status_is (ClerkThrown e) 429 = false ->
  processUserToClerk cfg (S fuel) userData w
  = Done (mkWorld (migrated w)
            (if status_is (ClerkThrown e) 422
             then S (alreadyExists w) else alreadyExists w)
            s'
            (trace w ++ [ECreateUser (createUser cfg data);
                         EAppendLog (mkLogEntry (userData !! "userId")
                                       (ClerkThrown e))])).
Proof.
  intros Hp Hc H429. cbn [processUserToClerk].
  rewrite (attempt_valid _ _ _ Hp). simpl. rewrite Hc. simpl. rewrite H429.
  destruct (status_is (ClerkThrown e) 422);
    unfold appendLog, incr_alreadyExists, emit; simpl;
    rewrite <- app_assoc; reflexivity.
Qed.

Lemma process_invalid (userData : JSObject) (err : list string) (w : World)
    (fuel : nat) :
  userSchema_safeParse userData = inl err ->
  processUserToClerk cfg (S fuel) userData w
  = Done (mkWorld (migrated w) (alreadyExists w) (sink w)
            (trace w ++ [EAppendLog (mkLogEntry (userData !! "userId")
                                       (ZodError err))])).
Proof.
  intros Hp. cbn [processUserToClerk].
  rewrite (attempt_invalid _ _ _ Hp). reflexivity.
Qed.

(** In the loop a record that ends is preceded by one pacing delay, and the
    loop goes on with the next record. *)
Lemma for_each_user_step (fuel : nat) (userData : JSObject)
    (rest : list JSObject) (w w' : World) :
  processUserToClerk cfg fuel userData (cooldown cfg w) = Done w' ->
  for_each_user cfg fuel (userData :: rest) w = for_each_user cfg fuel rest w'.
Proof. intros Hd. simpl. rewrite Hd. reflexivity. Qed.

Lemma rate_limited_S (k : nat) (p : CreateParams) (s s1 : Sink) (e : ClerkError) :
  users_createUser p s = (Rejected e, s1) ->
  status e = Some 429 ->
  rate_limited (S k) p s = rate_limited k p s1.
Proof.
  intros Hc He. simpl. rewrite Hc, (status_is_code e 429 He). reflexivity.
Qed.

(** C4: when the provider rejects a valid record with status 429, the
    driver records the create call, sleeps [RETRY_DELAY] and processes the
    same record again with both counters unchanged and nothing logged; if
    after [k] further rejections of that kind the provider accepts, the call
    returns with [migrated] one higher, [alreadyExists] unchanged and a trace
    made of create calls and cooldowns only, and in the loop the record's
    events are one pacing delay followed by exactly those. *)
Theorem C4_rate_limited_retry (userData : JSObject) (data : User) (w : World)
    (e : ClerkError) (s1 : Sink) :
  userSchema_safeParse userData = inr data ->
  users_createUser (createUser cfg data) (sink w) = (Rejected e, s1) ->
  status e = Some 429 ->
  let p := createUser cfg data in
  (forall fuel,
     processUserToClerk cfg (S fuel) userData w
     = processUserToClerk cfg fuel userData
         (mkWorld (migrated w) (alreadyExists w) s1
            (trace w ++ [ECreateUser p; ESleep (RETRY_DELAY cfg)])))
  /\ (forall k sk s' fuel,
        rate_limited k p s1 = Some sk ->
        users_createUser p sk = (Created, s') ->
        (S k < fuel)%nat ->
        processUserToClerk cfg fuel userData w
        = Done (mkWorld (S (migrated w)) (alreadyExists w) s'
                  (trace w ++ retry_events cfg (S k) p ++ [ECreateUser p]))
        /\ forall rest,
            for_each_user cfg fuel (userData :: rest) w
            = for_each_user cfg fuel rest
                (mkWorld (S (migrated w)) (alreadyExists w) s'
                   (trace w ++ ESleep (DELAY cfg)
                      :: retry_events cfg (S k) p ++ [ECreateUser p]))).
Proof.
  intros Hp Hc He p. split.
  - intros fuel. change (S fuel) with (1 + fuel)%nat.
    rewrite (process_after_retries 1 userData data w s1 fuel Hp).
    + unfold after_retries, retry_events. simpl. reflexivity.
    + rewrite (rate_limited_S 0 _ _ _ _ Hc He). reflexivity.
  - intros k sk s' fuel Hk Hok Hfuel.
    assert (Hend : forall w0, sink w0 = sink w ->
              processUserToClerk cfg fuel userData w0
              = Done (mkWorld (S (migrated w0)) (alreadyExists w0) s'
                        (trace w0 ++ retry_events cfg (S k) p ++ [ECreateUser p]))).
    { intros w0 Hs.
      replace fuel with (S k + S (fuel - S (S k)))%nat by lia.
      rewrite (process_after_retries (S k) userData data w0 sk _ Hp)
        by (rewrite Hs, (rate_limited_S k _ _ _ _ Hc He); exact Hk).
      rewrite (process_created _ data _ s' _ Hp) by exact Hok.
      unfold after_retries. simpl. rewrite <- app_assoc. reflexivity. }
    split.
    + apply Hend. reflexivity.
    + intros rest. apply for_each_user_step.
      rewrite Hend by reflexivity. unfold cooldown, emit. simpl.
      rewrite <- app_assoc. reflexivity.
Qed.

(** C5: when the provider, after [k] rate-limited attempts (none when [k]
    is 0), rejects a valid record with status 422, the call returns with
    [alreadyExists] one higher and [migrated] unchanged, one entry with the
    record's [userId] and the error is appended to the log right after that
    create call, no further create call is made for the record, and the loop
    goes on with the next record. *)
Theorem C5_already_exists (userData : JSObject) (data : User) (w : World)
    (k : nat) (sk s' : Sink) (e : ClerkError) (fuel : nat) :
  userSchema_safeParse userData = inr data ->
  rate_limited k (createUser cfg data) (sink w) = Some sk ->
  users_createUser (createUser cfg data) sk = (Rejected e, s') ->
  status e = Some 422 ->
  (k < fuel)%nat ->
  let p := createUser cfg data in
  let entry := mkLogEntry (userData !! "userId") (ClerkThrown e) in
  processUserToClerk cfg fuel userData w
  = Done (mkWorld (migrated w) (S (alreadyExists w)) s'
            (trace w ++ retry_events cfg k p ++ [ECreateUser p; EAppendLog entry]))
  /\ forall rest,
      for_each_user cfg fuel (userData :: rest) w
      = for_each_user cfg fuel rest
          (mkWorld (migrated w) (S (alreadyExists w)) s'
             (trace w ++ ESleep (DELAY cfg)
                :: retry_events cfg k p ++ [ECreateUser p; EAppendLog entry])).
Proof.
  intros Hp Hk Hc He Hfuel p entry.
  assert (Hend : forall w0, sink w0 = sink w ->
            processUserToClerk cfg fuel userData w0
            = Done (mkWorld (migrated w0) (S (alreadyExists w0)) s'
                      (trace w0 ++ retry_events cfg k p
                         ++ [ECreateUser p; EAppendLog entry]))).
  { intros w0 Hs.
    replace fuel with (k + S (fuel - S k))%nat by lia.
    rewrite (process_after_retries k userData data w0 sk _ Hp)
      by (rewrite Hs; exact Hk).
    rewrite (process_rejected _ data _ e s' _ Hp)
      by (try exact Hc; rewrite (status_is_code e 422 He); reflexivity).
    rewrite (status_is_code e 422 He). unfold after_retries. simpl.
    rewrite <- app_assoc. reflexivity. }
  split.
  - apply Hend. reflexivity.
  - intros rest. apply for_each_user_step.
    rewrite Hend by reflexivity. unfold cooldown, emit. simpl.
    rewrite <- app_assoc. reflexivity.
Qed.

(** C6: a record that fails schema validation makes no create call and
    leaves the provider and both counters untouched; one entry with the
    record's [userId] and the validation error is appended to the log, the
    call returns, and the loop goes on with the next record. *)
Theorem C6_invalid_record (userData : JSObject) (err : list string) (w : World)
    (fuel : nat) :
  userSchema_safeParse userData = inl err ->
  let entry := mkLogEntry (userData !! "userId") (ZodError err) in
  processUserToClerk cfg (S fuel) userData w
  = Done (mkWorld (migrated w) (alreadyExists w) (sink w)
            (trace w ++ [EAppendLog entry]))
  /\ forall rest,
      for_each_user cfg (S fuel) (userData :: rest) w
      = for_each_user cfg (S fuel) rest
          (mkWorld (migrated w) (alreadyExists w) (sink w)
             (trace w ++ [ESleep (DELAY cfg); EAppendLog entry])).
Proof.
  intros Hp entry. split.
  - apply process_invalid, Hp.
  - intros rest. apply for_each_user_step.
    rewrite (process_invalid _ err _ _ Hp). unfold cooldown, emit. simpl.
    rewrite <- app_assoc. reflexivity.
Qed.

(** ** The loop *)

Lemma status_is_zod (issues : list string) (code : Z) :
  status_is (ZodError issues) code = false.
Proof. reflexivity. Qed.

(** Everything one call of [processUserToClerk] adds to the trace is about
    the record it was given. *)
Lemma process_events (fuel : nat) :
  forall (userData : JSObject) (w : World),
  exists seg,
    trace (world_of (processUserToClerk cfg fuel userData w)) = trace w ++ seg
    /\ Forall (about cfg userData) seg.
Proof.
  induction fuel as [|fuel IH]; intros userData w.
  - exists []. simpl. rewrite app_nil_r. auto.
  - cbn [processUserToClerk].
    destruct (userSchema_safeParse userData) as [err|data] eqn:Hp.
    + rewrite (attempt_invalid _ _ _ Hp). rewrite !status_is_zod.
      eexists. split; [reflexivity |]. repeat constructor.
    + rewrite (attempt_valid _ _ _ Hp). simpl.
      assert (Hcall : about cfg userData (ECreateUser (createUser cfg data)))
        by (exists data; auto).
      destruct (users_createUser _ _) as [[|e] s]; simpl.
      * eexists. split; [reflexivity |]. repeat constructor. exact Hcall.
      * destruct (status_is (ClerkThrown e) 422).
        { exists [ECreateUser (createUser cfg data);
                  EAppendLog (mkLogEntry (userData !! "userId") (ClerkThrown e))].
          simpl. rewrite <- app_assoc. split; [reflexivity |].
          repeat constructor. exact Hcall. }
        destruct (status_is (ClerkThrown e) 429).
        { match goal with
          | |- context [processUserToClerk cfg fuel userData ?w1] =>
              destruct (IH userData w1) as (seg & Hseg & Habout)
          end.
          exists (ECreateUser (createUser cfg data)
                  :: ESleep (RETRY_DELAY cfg) :: seg).
          rewrite Hseg. simpl. rewrite <- !app_assoc. split; [reflexivity |].
          repeat constructor; auto. }
        exists [ECreateUser (createUser cfg data);
                EAppendLog (mkLogEntry (userData !! "userId") (ClerkThrown e))].
        simpl. rewrite <- app_assoc. split; [reflexivity |].
        repeat constructor. exact Hcall.
Qed.

(** The loop's events are one segment per record, in the order of the
    list; it stops inside a record only when that record is still being
    retried. *)
Lemma for_each_user_segmented (fuel : nat) (users : list JSObject) :
  forall w : World,
  exists k evs,
    (k <= length users)%nat
    /\ trace (world_of (for_each_user cfg fuel users w)) = trace w ++ evs
    /\ Segmented cfg (take k users) evs
    /\ forall w', for_each_user cfg fuel users w = Done w' -> k = length users.
Proof.
  induction users as [|userData rest IH]; intros w.
  - exists 0%nat, []. simpl. rewrite app_nil_r.
    repeat split; auto. constructor.
  - simpl.
    destruct (process_events fuel userData (cooldown cfg w)) as (seg & Hseg & Habout).
    destruct (processUserToClerk cfg fuel userData (cooldown cfg w)) as [w1|w1] eqn:Hr.
    + destruct (IH w1) as (k & evs & Hk & Htr & Hsegs & Hdone).
      exists (S k), (ESleep (DELAY cfg) :: seg ++ evs).
      repeat split.
      * lia.
      * rewrite Htr. simpl in Hseg. rewrite Hseg. simpl.
        rewrite <- !app_assoc. reflexivity.
      * simpl. constructor; assumption.
      * intros w' Hw'. f_equal. eauto.
    + exists 1%nat, (ESleep (DELAY cfg) :: seg ++ []).
      repeat split.
      * lia.
      * simpl in *. rewrite Hseg, app_nil_r, <- app_assoc. reflexivity.
      * simpl. rewrite take_0. constructor; [assumption | constructor].
      * discriminate.
Qed.

(** ** Counters *)

Lemma process_counters_step (fuel : nat) :
  forall (userData : JSObject) (w : World),
    counters_step w (world_of (processUserToClerk cfg fuel userData w)).
Proof.
  unfold counters_step, counters_kept.
  induction fuel as [|fuel IH]; intros userData w.
  - simpl. auto.
  - cbn [processUserToClerk].
    destruct (userSchema_safeParse userData) as [err|data] eqn:Hp.
    + rewrite (attempt_invalid _ _ _ Hp), !status_is_zod. simpl. auto.
    + rewrite (attempt_valid _ _ _ Hp). simpl.
      destruct (users_createUser _ _) as [[|e] s]; simpl; [auto |].
      destruct (status_is (ClerkThrown e) 422); [simpl; auto |].
      destruct (status_is (ClerkThrown e) 429); [| simpl; auto].
      match goal with
      | |- context [processUserToClerk cfg fuel userData ?w1] =>
          specialize (IH userData w1)
      end.
      simpl in IH. exact IH.
Qed.

Lemma for_each_user_counters (fuel : nat) (users : list JSObject) :
  forall w : World,
    let w' := world_of (for_each_user cfg fuel users w) in
    (migrated w' + alreadyExists w'
     <= migrated w + alreadyExists w + length users)%nat.
Proof.
  induction users as [|userData rest IH]; intros w; simpl.
  - lia.
  - pose proof (process_counters_step fuel userData (cooldown cfg w)) as Hstep.
    destruct (processUserToClerk cfg fuel userData (cooldown cfg w)) as [w1|w1].
    + specialize (IH w1). unfold counters_step, counters_kept in Hstep.
      simpl in *. lia.
    + unfold counters_step, counters_kept in Hstep. simpl in *. lia.
Qed.

(** C10: whatever the bound on attempts, one call of [processUserToClerk]
    leaves the counters as they were or adds one to exactly one of them; a
    record that fails validation, and a record whose last answer is a
    rejection with a status other than 422 and 429, end with both counters
    as they were; over the loop, [migrated] plus [alreadyExists] grows by at
    most the number of records. *)
Theorem C10_counters_invariant :
  (forall fuel userData w,
      counters_step w (world_of (processUserToClerk cfg fuel userData w)))
  /\ (forall fuel userData w err,
        userSchema_safeParse userData = inl err ->
        counters_kept w (world_of (processUserToClerk cfg fuel userData w)))
  /\ (forall fuel userData data w k sk e s',
        userSchema_safeParse userData = inr data ->
        rate_limited k (createUser cfg data) (sink w) = Some sk ->
        users_createUser (createUser cfg data) sk = (Rejected e, s') ->
        status_is (ClerkThrown e) 422 = false ->
        status_is (ClerkThrown e) 429 = false ->
        (k < fuel)%nat ->
        exists w', processUserToClerk cfg fuel userData w = Done w'
                   /\ counters_kept w w')
  /\ (forall fuel users w,
        let w' := world_of (for_each_user cfg fuel users w) in
        (migrated w' + alreadyExists w'
         <= migrated w + alreadyExists w + length users)%nat).
Proof.
  split; [| split; [| split]].
  - intros fuel. apply process_counters_step.
  - intros [|fuel] userData w err Hp; [split; reflexivity |].
    rewrite (process_invalid _ err _ _ Hp). split; reflexivity.
  - intros fuel userData data w k sk e s' Hp Hk Hc H422 H429 Hfuel.
    replace fuel with (k + S (fuel - S k))%nat by lia.
    rewrite (process_after_retries k userData data w sk _ Hp Hk).
    rewrite (process_rejected _ data _ e s' _ Hp) by assumption.
    rewrite H422. eexists. split; [reflexivity |]. split; reflexivity.
  - intros fuel users. apply for_each_user_counters.
Qed.

End DriverFacts.

Lemma C4_rate_limited_retry_witness :
  let userData := sample_user "u1" in
  let limited := Rejected (rejection 429) in
  @processUserToClerk scripted sample_cfg 3 userData (sample_world [limited; limited])
  = @Done scripted
      (@mkWorld scripted 1 0 []
         [ECreateUser (mkCreateParams "u1" ["a@example.org"] None None None None None (Some true));
          ESleep (Int 10);
          ECreateUser (mkCreateParams "u1" ["a@example.org"] None None None None None (Some true));
          ESleep (Int 10);
          ECreateUser (mkCreateParams "u1" ["a@example.org"] None None None None None (Some true))]).
Proof.
  pose proof (@C4_rate_limited_retry scripted sample_cfg (sample_user "u1")
                (mkUser "u1" "a@example.org" None None None None)
                (sample_world [Rejected (rejection 429); Rejected (rejection 429)])
                (rejection 429) [Rejected (rejection 429)]
                eq_refl eq_refl eq_refl) as [_ Hrun].
  destruct (Hrun 1%nat [] [] 3%nat eq_refl eq_refl) as [Hdone _]; [lia |].
  exact Hdone.
Defined.

Lemma C5_already_exists_witness :
  let userData := sample_user "dup1" in
  let p := mkCreateParams "dup1" ["a@example.org"] None None None None None (Some true) in
  let entry := mkLogEntry (Some (JStr "dup1")) (ClerkThrown (rejection 422)) in
  @processUserToClerk scripted sample_cfg 1 userData
    (sample_world [Rejected (rejection 422)])
  = @Done scripted (@mkWorld scripted 0 1 [] [ECreateUser p; EAppendLog entry])
  /\ forall rest,
      @for_each_user scripted sample_cfg 1 (userData :: rest)
        (sample_world [Rejected (rejection 422)])
      = @for_each_user scripted sample_cfg 1 rest
          (@mkWorld scripted 0 1 [] [ESleep (Int 1); ECreateUser p; EAppendLog entry]).
Proof.
  apply (@C5_already_exists scripted sample_cfg (sample_user "dup1")
           (mkUser "dup1" "a@example.org" None None None None)
           (sample_world [Rejected (rejection 422)]) 0 [Rejected (rejection 422)] []
           (rejection 422) 1);
    [reflexivity | reflexivity | reflexivity | reflexivity | lia].
Defined.

Lemma C6_invalid_record_witness :
  let userData : JSObject := {[ "userId" := JStr "bad1" ]} in
  let entry := mkLogEntry (Some (JStr "bad1")) (ZodError ["email"]) in
  @processUserToClerk scripted sample_cfg 1 userData (sample_world [])
  = @Done scripted (@mkWorld scripted 0 0 [] [EAppendLog entry])
  /\ forall rest,
      @for_each_user scripted sample_cfg 1 (userData :: rest) (sample_world [])
      = @for_each_user scripted sample_cfg 1 rest
          (@mkWorld scripted 0 0 [] [ESleep (Int 1); EAppendLog entry]).
Proof.
  exact (@C6_invalid_record scripted sample_cfg {[ "userId" := JStr "bad1" ]}
           ["email"] (sample_world []) 0 eq_refl).
Defined.

(** ** Offset *)

Lemma slice_nonneg {A} (z : Z) (l : list A) :
  0 <= z -> slice (Int z) l = drop (Z.to_nat z) l.
Proof.
  intros Hz. unfold slice.
  destruct (z <? 0) eqn:Hneg; [apply Z.ltb_lt in Hneg; lia |].
  destruct (Z.le_gt_cases z (Z.of_nat (length l))) as [Hle|Hgt].
  - rewrite Z.min_l by exact Hle. reflexivity.
  - rewrite Z.min_r by lia. rewrite Nat2Z.id.
    rewrite !drop_ge; [reflexivity | lia | lia].
Qed.

(** C8 (counterexample): with [OFFSET] set to [-1] and two records in the
    input, only the last record is submitted; the record at index 0 gets no
    create call although no index lies before the offset. *)
Lemma C8_negative_offset :
  let env : gmap string string :=
    <["OFFSET" := "-1"]> {[ "CLERK_SECRET_KEY" := "sk_live_abc" ]} in
  @events scripted (@program scripted 1 env [] sample_files [])
  = [EReadFile "users.json"; EReadFile "users-phone-numbers.json";
     ESleep (Int 1); ECreateUser (sample_params "u1")].
Proof. vm_compute. reflexivity. Qed.

(** What one call leaves in the trace, for a record that parses: after
    [k] rate-limited attempts a last create call, accepted or else rejected
    and logged; or, when the bound is reached, as many rate-limited attempts
    as the bound allows. *)
Lemma process_valid_shape `{Collaborators} (cfg : Config) (userData : JSObject)
    (data : User) (fuel : nat) :
  userSchema_safeParse userData = inr data ->
  forall w : World,
    match processUserToClerk cfg fuel userData w with
    | Done w' => exists seg, trace w' = trace w ++ seg /\ handled cfg userData seg
    | Spinning w' =>
        trace w' = trace w ++ retry_events cfg fuel (createUser cfg data)
    end.
Proof.
  intros Hp. unfold handled. rewrite Hp.
  induction fuel as [|fuel IH]; intros w.
  - simpl. rewrite app_nil_r. reflexivity.
  - cbn [processUserToClerk]. rewrite (attempt_valid cfg _ _ _ Hp). simpl.
    destruct (users_createUser _ _) as [[|e] s]; simpl.
    + eexists. split; [reflexivity |]. exists 0%nat. left. reflexivity.
    + destruct (status_is (ClerkThrown e) 422).
      { eexists. split; [simpl; rewrite <- app_assoc; reflexivity |].
        exists 0%nat. right. exists e. reflexivity. }
      destruct (status_is (ClerkThrown e) 429).
      * match goal with
        | |- context [processUserToClerk cfg fuel userData ?w1] =>
            specialize (IH w1);
            destruct (processUserToClerk cfg fuel userData w1) as [w'|w']
        end.
        -- destruct IH as (seg & Htr & k & Hseg).
           exists (ECreateUser (createUser cfg data)
                   :: ESleep (RETRY_DELAY cfg) :: seg).
           split; [rewrite Htr; simpl; rewrite <- !app_assoc; reflexivity |].
           exists (S k). rewrite retry_events_S.
           destruct Hseg as [-> | (e' & ->)]; [left | right; exists e'];
             reflexivity.
        -- rewrite IH, retry_events_S. simpl. rewrite <- !app_assoc. reflexivity.
      * eexists. split; [simpl; rewrite <- app_assoc; reflexivity |].
        exists 0%nat. right. exists e. reflexivity.
Qed.

(** With at least one attempt allowed, the loop handles the records one
    after the other in list order; it stops inside a record only when that
    record has been rate-limited as often as the bound allows. *)
Lemma for_each_user_submitted `{Collaborators} (cfg : Config) (fuel : nat)
    (users : list JSObject) :
  (0 < fuel)%nat ->
  forall w : World,
    match for_each_user cfg fuel users w with
    | Done w' => exists evs, trace w' = trace w ++ evs /\ Submitted cfg users evs
    | Spinning w' =>
        exists k userData data evs,
          users !! k = Some userData
          /\ userSchema_safeParse userData = inr data
          /\ Submitted cfg (take k users) evs
          /\ trace w'
             = trace w ++ evs
               ++ ESleep (DELAY cfg) :: retry_events cfg fuel (createUser cfg data)
    end.
Proof.
  intros Hfuel. induction users as [|userData rest IH]; intros w.
  - exists []. simpl. rewrite app_nil_r. split; [reflexivity | constructor].
  - simpl.
    assert (Hone : match processUserToClerk cfg fuel userData (cooldown cfg w) with
                   | Done w' =>
                       exists seg, trace w' = trace (cooldown cfg w) ++ seg
                                   /\ handled cfg userData seg
                   | Spinning w' =>
                       exists data,
                         userSchema_safeParse userData = inr data
                         /\ trace w' = trace (cooldown cfg w)
                                       ++ retry_events cfg fuel (createUser cfg data)
                   end).
    { destruct (userSchema_safeParse userData) as [err|data] eqn:Hp.
      - destruct fuel as [|fuel']; [lia |].
        rewrite (process_invalid cfg _ err _ _ Hp).
        eexists. split; [reflexivity |]. unfold handled. rewrite Hp. reflexivity.
      - pose proof (process_valid_shape cfg userData data fuel Hp (cooldown cfg w))
          as Hshape.
        destruct (processUserToClerk cfg fuel userData (cooldown cfg w));
          [exact Hshape | exists data; auto]. }
    destruct (processUserToClerk cfg fuel userData (cooldown cfg w)) as [w1|w1].
    + destruct Hone as (seg & Htr1 & Hseg).
      specialize (IH w1). destruct (for_each_user cfg fuel rest w1) as [w'|w'].
      * destruct IH as (evs & Htr & Hsub).
        exists (ESleep (DELAY cfg) :: seg ++ evs).
        split; [| constructor; assumption].
        rewrite Htr, Htr1. simpl. rewrite <- !app_assoc. reflexivity.
      * destruct IH as (k & u & data & evs & Hk & Hp & Hsub & Htr).
        exists (S k), u, data, (ESleep (DELAY cfg) :: seg ++ evs).
        split; [exact Hk |]. split; [exact Hp |].
        split; [simpl; constructor; assumption |].
        rewrite Htr, Htr1. simpl. rewrite <- !app_assoc. reflexivity.
    + destruct Hone as (data & Hp & Htr1).
      exists 0%nat, userData, data, [].
      split; [reflexivity |]. split; [exact Hp |].
      split; [rewrite take_0; constructor |].
      rewrite Htr1. simpl. rewrite <- app_assoc. reflexivity.
Qed.

(** C8 (amended): when [OFFSET] is a non-negative integer, [main] reads its
    two files and then handles exactly the records of the merged list from
    index [OFFSET] on, in list order and one after the other: each gets its
    pacing delay and is then either logged as invalid or submitted to the
    provider until accepted or rejected and logged.  When [main] completes,
    every such record has been handled so and the trace holds nothing else;
    [main] stops early only inside a record that was rate-limited as often
    as the bound on attempts allows, every selected record before it having
    been handled.  No event concerns a record before the offset. *)
Theorem C8_offset_slice `{Collaborators} (cfg : Config) (fuel : nat)
    (argv : list string) (files : string -> option (list JSObject))
    (w : World) (users phones : list JSObject) (z : Z) :
  OFFSET cfg = Int z ->
  0 <= z ->
  (0 < fuel)%nat ->
  files (argv !! 2%nat ?? "users.json") = Some users ->
  files (argv !! 3%nat ?? "users-phone-numbers.json") = Some phones ->
  let merged := parsedUsersWithPhoneNumbers users phones in
  let selected := drop (Z.to_nat z) merged in
  let reads := [EReadFile (argv !! 2%nat ?? "users.json");
                EReadFile (argv !! 3%nat ?? "users-phone-numbers.json")] in
  match main cfg fuel argv files w with
  | MainDone w' =>
      exists evs,
        trace w' = trace w ++ reads ++ evs /\ Submitted cfg selected evs
  | MainSpinning w' =>
      exists k userData data evs,
        selected !! k = Some userData
        /\ userSchema_safeParse userData = inr data
        /\ Submitted cfg (take k selected) evs
        /\ trace w'
           = trace w ++ reads ++ evs
             ++ ESleep (DELAY cfg) :: retry_events cfg fuel (createUser cfg data)
  | MainThrew _ => False
  | StartupThrew _ => False
  end
  /\ forall i, selected !! i = merged !! (Z.to_nat z + i)%nat.
Proof.
  intros Hoff Hz Hfuel Hu Hp merged selected reads.
  split; [| intros i; apply lookup_drop].
  unfold main. rewrite Hu, Hp, Hoff, (slice_nonneg z _ Hz).
  fold merged. fold selected.
  match goal with
  | |- context [for_each_user cfg fuel selected ?w2] =>
      pose proof (for_each_user_submitted cfg fuel selected Hfuel w2) as Hrun;
      destruct (for_each_user cfg fuel selected w2) as [w3|w3]
  end.
  - destruct Hrun as (evs & Htr & Hsub). exists evs.
    split; [| exact Hsub]. rewrite Htr. simpl. rewrite <- !app_assoc. reflexivity.
  - destruct Hrun as (k & u & data & evs & Hk & Hparse & Hsub & Htr).
    exists k, u, data, evs. repeat split; auto.
    rewrite Htr. simpl. rewrite <- !app_assoc. reflexivity.
Qed.

Lemma C8_offset_slice_witness :
  let cfg := mkConfig "sk_live_abc" (Int 1) (Int 10) "false" (Int 1) bcrypt in
  exists w' evs,
    @main scripted cfg 1 [] sample_files (sample_world []) = @MainDone scripted w'
    /\ @trace scripted w'
       = [EReadFile "users.json"; EReadFile "users-phone-numbers.json"] ++ evs
    /\ @Submitted scripted cfg [sample_user "u1"] evs.
Proof.
  intros cfg.
  pose proof (@C8_offset_slice scripted cfg 1 [] sample_files (sample_world [])
                [sample_user "u0"; sample_user "u1"] [] 1
                eq_refl ltac:(lia) ltac:(lia) eq_refl eq_refl) as [Hrun _].
  remember (@main scripted cfg 1 [] sample_files (sample_world [])) as o eqn:Ho.
  assert (Hdone : exists w', o = @MainDone scripted w')
    by (subst o; eexists; reflexivity).
  destruct Hdone as [w' ->].
  simpl in Hrun. destruct Hrun as (evs & Htr & Hsub).
  exists w', evs. split; [reflexivity |]. split; [exact Htr | exact Hsub].
Defined.

Lemma C10_counters_invariant_witness :
  @counters_kept scripted (sample_world [])
    (@world_of scripted
       (@processUserToClerk scripted sample_cfg 1 {[ "userId" := JStr "bad1" ]}
          (sample_world []))).
Proof.
  destruct (@C10_counters_invariant scripted sample_cfg) as (_ & Hinvalid & _).
  exact (Hinvalid 1%nat {[ "userId" := JStr "bad1" ]} (sample_world [])
           ["email"] eq_refl).
Defined.

End MigrationFacts.

Module CleanupFacts.

Import Cleanup.

Section DriverFacts.

Context `{Collaborators}.

(** The loop deletes the users in list order, logging each deletion, until
    the list ends or a deletion is rejected; a rejection is logged and
    thrown, and nothing follows it. *)
Lemma delete_each_run (clerkUsers : list ClerkUser) :
  forall w : World,
  exists k,
    (k <= length clerkUsers)%nat
    /\ match delete_each clerkUsers w with
       | Returned w' =>
           k = length clerkUsers
           /\ trace w' = trace w ++ flat_map deleted_events (take k clerkUsers)
           /\ usersDeleted w' = (usersDeleted w + k)%nat
       | Threw error w' =>
           exists failed s s',
             clerkUsers !! k = Some failed
             /\ users_deleteUser (id failed) s = (Some error, s')
             /\ trace w'
                = trace w ++ flat_map deleted_events (take k clerkUsers)
                  ++ [EDeleteUser (id failed);
                      EAppendLog (LogNotDeleted (id failed) error)]
             /\ usersDeleted w' = (usersDeleted w + k)%nat
       end.
Proof.
  induction clerkUsers as [|clerkUser rest IH]; intros w.
  - exists 0%nat. simpl. rewrite app_nil_r. repeat split; lia.
  - simpl.
    destruct (users_deleteUser (id clerkUser) (sink w)) as [[error|] s] eqn:Hdel.
    + exists 0%nat. split; [simpl; lia |].
      exists clerkUser, (sink w), s. simpl.
      rewrite <- app_assoc. repeat split; auto; lia.
    + match goal with
      | |- context [delete_each rest ?w1] =>
          destruct (IH w1) as (k & Hk & Hrun);
          destruct (delete_each rest w1) as [w'|error w']
      end.
      * destruct Hrun as (-> & Htr & Hcount).
        exists (S (length rest)). split; [simpl; lia |].
        split; [reflexivity |]. simpl in *. rewrite Htr, Hcount.
        rewrite <- !app_assoc. split; [reflexivity | lia].
      * destruct Hrun as (failed & s1 & s2 & Hfailed & Hrej & Htr & Hcount).
        exists (S k). split; [simpl; lia |].
        exists failed, s1, s2. simpl in *. rewrite Htr, Hcount.
        rewrite <- !app_assoc. repeat split; auto; lia.
Qed.

(** While the provider accepts the deletions, the loop deletes and logs
    the users in list order, counting each of them. *)
Lemma delete_each_accepted (before : list ClerkUser) :
  forall (rest : list ClerkUser) (w : World) (sk : Sink),
    deleted_all before (sink w) = Some sk ->
    delete_each (before ++ rest) w
    = delete_each rest
        (mkWorld (usersDeleted w + length before) sk
           (trace w ++ flat_map deleted_events before)).
Proof.
  induction before as [|clerkUser before IH]; intros rest w sk Hall.
  - simpl in *. injection Hall as <-. rewrite app_nil_r, Nat.add_0_r.
    destruct w; reflexivity.
  - simpl in Hall.
    destruct (users_deleteUser (id clerkUser) (sink w)) as [[error|] s1] eqn:Hdel;
      [discriminate |].
    change ((clerkUser :: before) ++ rest) with (clerkUser :: before ++ rest).
    cbn [delete_each]. rewrite Hdel.
    rewrite (IH rest _ sk) by exact Hall.
    f_equal. unfold appendLog, incr_usersDeleted, with_sink, emit. simpl.
    f_equal; [lia |]. rewrite <- !app_assoc. reflexivity.
Qed.

(** Either the provider accepts every deletion of the list, or there is a
    first user whose deletion it rejects. *)
Lemma deleted_all_or_rejected (clerkUsers : list ClerkUser) :
  forall s : Sink,
    (exists s', deleted_all clerkUsers s = Some s')
    \/ exists before failed after sk error s',
         clerkUsers = before ++ failed :: after
         /\ deleted_all before s = Some sk
         /\ users_deleteUser (id failed) sk = (Some error, s').
Proof.
  induction clerkUsers as [|clerkUser rest IH]; intros s.
  - left. exists s. reflexivity.
  - destruct (users_deleteUser (id clerkUser) s) as [[error|] s1] eqn:Hdel.
    + right. exists [], clerkUser, rest, s, error, s1. auto.
    + destruct (IH s1) as [[s' Hall] | (before & failed & after & sk & error & s' & -> & Hall & Hrej)].
      * left. exists s'. simpl. rewrite Hdel. exact Hall.
      * right. exists (clerkUser :: before), failed, after, sk, error, s'.
        split; [reflexivity |]. split; [| exact Hrej].
        simpl. rewrite Hdel. exact Hall.
Qed.

(** C9: [main] deletes the listed users one after the other in list order
    and appends a log entry after every delete call.  When the provider
    rejects the deletion of a user after accepting those of the users before
    it, [main] logs the rejection and throws that error: every user before
    was deleted, logged and counted, and no delete call is made for any user
    after.  When the provider accepts every deletion, [main] returns with
    every user deleted, logged and counted.  One of the two always holds. *)
Theorem C9_cleanup_fails_fast (w : World) (clerkUsers : list ClerkUser) (s0 : Sink) :
  users_getUserList (sink w) = (inr clerkUsers, s0) ->
  (forall before failed after sk error s',
      clerkUsers = before ++ failed :: after ->
      deleted_all before s0 = Some sk ->
      users_deleteUser (id failed) sk = (Some error, s') ->
      main w
      = Threw error
          (mkWorld (usersDeleted w + length before) s'
             (trace w ++ EGetUserList
                :: flat_map deleted_events before
                ++ [EDeleteUser (id failed);
                    EAppendLog (LogNotDeleted (id failed) error)])))
  /\ (forall s',
        deleted_all clerkUsers s0 = Some s' ->
        main w
        = Returned
            (mkWorld (usersDeleted w + length clerkUsers) s'
               (trace w ++ EGetUserList :: flat_map deleted_events clerkUsers)))
  /\ ((exists s', deleted_all clerkUsers s0 = Some s')
      \/ exists before failed after sk error s',
           clerkUsers = before ++ failed :: after
           /\ deleted_all before s0 = Some sk
           /\ users_deleteUser (id failed) sk = (Some error, s')).
Proof.
  intros Hlist. unfold main. rewrite Hlist.
  split; [| split].
  - intros before failed after sk error s' -> Hall Hrej.
    rewrite (delete_each_accepted before (failed :: after) _ sk) by exact Hall.
    cbn [delete_each]. simpl. rewrite Hrej.
    unfold appendLog, with_sink, emit. simpl.
    rewrite <- !app_assoc. reflexivity.
  - intros s' Hall.
    rewrite <- (app_nil_r clerkUsers) at 1.
    rewrite (delete_each_accepted clerkUsers [] _ s') by exact Hall.
    simpl. rewrite <- !app_assoc. reflexivity.
  - apply deleted_all_or_rejected.
Qed.

End DriverFacts.

Lemma C9_cleanup_fails_fast_witness :
  let clerk := poisoned "u2" in
  let users := [mkClerkUser "u1"; mkClerkUser "u2"; mkClerkUser "u3"] in
  let error := mkClerkError (Some 500) "cannot delete" in
  @main clerk (@mkWorld clerk 0 users [])
  = @Threw clerk error
      (@mkWorld clerk 1 [mkClerkUser "u2"; mkClerkUser "u3"]
         [EGetUserList;
          EDeleteUser "u1"; EAppendLog (LogDeleted "u1");
          EDeleteUser "u2"; EAppendLog (LogNotDeleted "u2" error)]).
Proof.
  intros clerk users error.
  destruct (@C9_cleanup_fails_fast clerk (@mkWorld clerk 0 users []) users users)
    as (Hthrows & _); [reflexivity |].
  apply (Hthrows [mkClerkUser "u1"] (mkClerkUser "u2") [mkClerkUser "u3"]
           [mkClerkUser "u2"; mkClerkUser "u3"]);
    reflexivity.
Defined.

End CleanupFacts.

(** * Further properties *)

(** ** Configuration and the startup guards *)

Module StartupLaws.

Import Migration.

Lemma hasher_parse_value (s : string) (h : HashingAlgorithms) :
  hasherSchema_parse s = Some h -> hasher_value h = s.
Proof.
  intros Hfind. apply find_some in Hfind as [_ Heq].
  apply String.eqb_eq in Heq. exact Heq.
Qed.

(** X1: The enumeration and its parser are inverse to each other: a string
    parses to [h] exactly when it is the value of [h]. *)
Theorem hasher_parse_iff_value (s : string) (h : HashingAlgorithms) :
  hasherSchema_parse s = Some h <-> hasher_value h = s.
Proof.
  split; [apply hasher_parse_value |].
  intros <-. destruct h; reflexivity.
Qed.

(** X2: Which of the three startup errors is thrown: the hasher is checked
    first, then the presence of the key, then the kind of key. *)
Theorem startup_refusals (env : gmap string string) :
  let hasher := hasherSchema_parse (env !! "PASSWORD_HASHER" ?? hasher_value bcrypt) in
  (startup env = Refused InvalidPasswordHasher <-> hasher = None)
  /\ (startup env = Refused SecretKeyRequired
      <-> hasher <> None /\ falsy_key (env !! "CLERK_SECRET_KEY") = true)
  /\ (startup env = Refused DevelopmentInstanceKey
      <-> hasher <> None
          /\ exists key, env !! "CLERK_SECRET_KEY" = Some key
                         /\ key <> ""
                         /\ second_segment key <> Some "live"
                         /\ env !! "IMPORT_TO_DEV_INSTANCE" ?? "false" = "false").
Proof.
  intros hasher. unfold startup. fold hasher.
  destruct hasher as [h|].
  - destruct (env !! "CLERK_SECRET_KEY") as [key|] eqn:Hkey; simpl.
    + destruct (String.eqb_spec key "") as [->|Hne].
      * split; [split; discriminate |]. split.
        -- split; [intros _; split; [discriminate | reflexivity] | reflexivity].
        -- split; [discriminate |].
           intros (_ & k & [= <-] & Hk & _). congruence.
      * destruct (not_live (second_segment key)) eqn:Hlive;
          [apply MigrationFacts.not_live_spec in Hlive |
           apply not_true_iff_false in Hlive;
           rewrite MigrationFacts.not_live_spec in Hlive].
        -- destruct (String.eqb_spec (env !! "IMPORT_TO_DEV_INSTANCE" ?? "false") "false")
             as [Himp|Himp]; simpl.
           ++ split; [split; discriminate |]. split.
              ** split; [discriminate | intros [_ [=]]].
              ** split; [| reflexivity].
                 intros _. split; [discriminate |]. exists key. auto.
           ++ split; [split; discriminate |]. split.
              ** split; [discriminate | intros [_ [=]]].
              ** split; [discriminate |].
                 intros (_ & k & [= <-] & _ & _ & Hk). congruence.
        -- simpl. split; [split; discriminate |]. split.
           ++ split; [discriminate | intros [_ [=]]].
           ++ split; [discriminate |].
              intros (_ & k & [= <-] & _ & Hk & _). destruct (Hlive Hk).
    + split; [split; discriminate |]. split.
      * split; [intros _; split; [discriminate | reflexivity] | reflexivity].
      * split; [discriminate |]. intros (_ & k & [=] & _).
  - split; [split; reflexivity |]. split.
    + split; [discriminate | intros [Hh _]; destruct (Hh eq_refl)].
    + split; [discriminate | intros [Hh _]; destruct (Hh eq_refl)].
Qed.

(** X3: A configuration that got past the guards: its key is the environment's
    and is not empty, it is a production key unless [IMPORT_TO_DEV_INSTANCE]
    was set to something other than [false], and its hasher is the
    environment's (bcrypt when unset). *)
Theorem started_config (env : gmap string string) (cfg : Config) :
  startup env = Started cfg ->
  env !! "CLERK_SECRET_KEY" = Some (SECRET_KEY cfg)
  /\ SECRET_KEY cfg <> ""
  /\ (second_segment (SECRET_KEY cfg) = Some "live" \/ IMPORT_TO_DEV cfg <> "false")
  /\ IMPORT_TO_DEV cfg = env !! "IMPORT_TO_DEV_INSTANCE" ?? "false"
  /\ hasher_value (PASSWORD_HASHER cfg) = env !! "PASSWORD_HASHER" ?? hasher_value bcrypt.
Proof.
  unfold startup.
  destruct (hasherSchema_parse _) as [h|] eqn:Hh; [| discriminate].
  apply hasher_parse_value in Hh.
  destruct (env !! "CLERK_SECRET_KEY") as [key|]; simpl; [| discriminate].
  destruct (String.eqb_spec key "") as [->|Hne]; [discriminate |].
  destruct (not_live (second_segment key)) eqn:Hlive; simpl.
  - destruct (String.eqb_spec (env !! "IMPORT_TO_DEV_INSTANCE" ?? "false") "false")
      as [Himp|Himp]; [discriminate |].
    intros [= <-]. simpl. auto 6.
  - intros [= <-]. simpl. repeat split; auto.
    left. destruct (second_segment key) as [seg|]; simpl in Hlive; [| discriminate].
    apply negb_false_iff, String.eqb_eq in Hlive. congruence.
Qed.

Lemma started_config_witness :
  SECRET_KEY sample_cfg <> ""
  /\ (second_segment (SECRET_KEY sample_cfg) = Some "live"
      \/ IMPORT_TO_DEV sample_cfg <> "false").
Proof.
  destruct (started_config {[ "CLERK_SECRET_KEY" := "sk_live_abc" ]} sample_cfg)
    as (_ & Hne & Hkind & _); [reflexivity |].
  split; assumption.
Defined.

(** *** Numbers read from the environment *)

Lemma append_String (c : ascii) (s t : string) :
  (String c s ++ t)%string = String c (s ++ t)%string.
Proof. reflexivity. Qed.

Lemma digits_prefix_uint (d : Decimal.uint) (tail : string) :
  digits_prefix 10 (NilEmpty.string_of_uint d ++ tail)%string
  = uint_digits d ++ digits_prefix 10 tail.
Proof.
  induction d; cbn [NilEmpty.string_of_uint uint_digits app];
    [reflexivity | ..];
    rewrite append_String; cbn [digits_prefix];
    match goal with
    | |- context [digit_val 10 ?c] =>
        let v := eval vm_compute in (digit_val 10 c) in
        change (digit_val 10 c) with v
    end;
    rewrite IHd; reflexivity.
Qed.

Lemma fold_digits_acc (d : Decimal.uint) :
  forall acc : positive,
    fold_left (fun a x => a * 10 + x) (uint_digits d) (Z.pos acc)
    = Z.pos (Pos.of_uint_acc d acc).
Proof.
  induction d; intros acc; cbn [uint_digits fold_left Pos.of_uint_acc];
    [reflexivity | ..];
    match goal with
    | |- fold_left _ _ ?a = Z.pos (Pos.of_uint_acc _ ?b) =>
        replace a with (Z.pos b) by lia
    end;
    apply IHd.
Qed.

Lemma math_int_uint (d : Decimal.uint) :
  math_int 10 (uint_digits d) = Z.of_N (Pos.of_uint d).
Proof.
  unfold math_int.
  induction d; cbn [uint_digits fold_left Pos.of_uint];
    [reflexivity | exact IHd | ..];
    match goal with
    | |- fold_left _ _ ?a = Z.of_N (N.pos (Pos.of_uint_acc _ ?b)) =>
        change a with (Z.pos b)
    end;
    apply fold_digits_acc.
Qed.


Lemma uint_digits_nonnil (d : Decimal.uint) :
  d <> Decimal.Nil -> uint_digits d <> [].
Proof. destruct d; simpl; congruence. Qed.

(** A decimal numeral is not taken for a hexadecimal literal, unless it is
    a single zero followed by an x. *)
Lemma no_hex_prefix (d : Decimal.uint) (tail : string) :
  d <> Decimal.Nil ->
  (d = Decimal.zero -> not_hex_tail tail) ->
  strip_hex_prefix (NilEmpty.string_of_uint d ++ tail)%string
  = (10, (NilEmpty.string_of_uint d ++ tail)%string).
Proof.
  intros Hnil Hzero.
  destruct d as [|d'| | | | | | | | |]; try reflexivity; [congruence |].
  destruct d'; try reflexivity.
  specialize (Hzero eq_refl).
  destruct tail as [|c rest]; [reflexivity |].
  destruct (Hzero rest) as [Hx HX].
  cbn [NilEmpty.string_of_uint]. rewrite append_String.
  change ("" ++ String c rest)%string with (String c rest).
  destruct (Ascii.eqb_spec c "x") as [->|Hcx]; [congruence |].
  destruct (Ascii.eqb_spec c "X") as [->|HcX]; [congruence |].
  destruct c as [[|] [|] [|] [|] [|] [|] [|] [|]]; try reflexivity; congruence.
Qed.

Lemma parse_digits_uint (sign : Z) (d : Decimal.uint) (tail : string) :
  d <> Decimal.Nil ->
  digits_prefix 10 tail = [] ->
  match digits_prefix 10 (NilEmpty.string_of_uint d ++ tail)%string with
  | [] => NaN
  | ds => Int (sign * math_int 10 ds)
  end = Int (sign * Z.of_N (Pos.of_uint d)).
Proof.
  intros Hnil Htail.
  rewrite digits_prefix_uint, Htail, app_nil_r.
  pose proof (uint_digits_nonnil d Hnil) as Hne.
  rewrite <- math_int_uint.
  destruct (uint_digits d); [congruence | reflexivity].
Qed.

Lemma NilZero_string_of_uint (d : Decimal.uint) :
  d <> Decimal.Nil -> NilZero.string_of_uint d = NilEmpty.string_of_uint d.
Proof. destruct d; simpl; congruence. Qed.

Lemma leading_digit (d : Decimal.uint) (tail : string) :
  d <> Decimal.Nil ->
  trim_start (NilEmpty.string_of_uint d ++ tail)%string
  = (NilEmpty.string_of_uint d ++ tail)%string
  /\ strip_sign (NilEmpty.string_of_uint d ++ tail)%string
     = (1, (NilEmpty.string_of_uint d ++ tail)%string).
Proof. destruct d; try congruence; intros _; split; reflexivity. Qed.

Lemma parseInt_unsigned (d : Decimal.uint) (tail : string) :
  d <> Decimal.Nil ->
  digits_prefix 10 tail = [] ->
  (d = Decimal.zero -> not_hex_tail tail) ->
  parseInt (NilEmpty.string_of_uint d ++ tail)%string = Int (Z.of_N (Pos.of_uint d))
  /\ parseInt (String "-" (NilEmpty.string_of_uint d ++ tail))
     = Int (- Z.of_N (Pos.of_uint d)).
Proof.
  intros Hnil Htail Hzero.
  destruct (leading_digit d tail Hnil) as [Htrim Hsign].
  pose proof (no_hex_prefix d tail Hnil Hzero) as Hhex.
  split.
  - unfold parseInt. rewrite Htrim, Hsign. cbv beta iota. rewrite Hhex.
    cbv beta iota.
    rewrite (parse_digits_uint 1 d tail Hnil Htail). f_equal; lia.
  - unfold parseInt.
    change (trim_start (String "-" (NilEmpty.string_of_uint d ++ tail)))
      with (String "-" (NilEmpty.string_of_uint d ++ tail)).
    change (strip_sign (String "-" (NilEmpty.string_of_uint d ++ tail)))
      with (-1, (NilEmpty.string_of_uint d ++ tail)%string).
    cbv beta iota. rewrite Hhex. cbv beta iota.
    rewrite (parse_digits_uint (-1) d tail Hnil Htail). f_equal; lia.
Qed.

(** [parseInt] reads back the decimal text of any integer, and ignores
    whatever follows the digits. *)
Lemma parseInt_decimal (n : Z) (tail : string) :
  digits_prefix 10 tail = [] ->
  (n = 0 -> not_hex_tail tail) ->
  parseInt (Z_to_string n ++ tail)%string = Int n.
Proof.
  intros Htail Hzero. unfold Z_to_string.
  destruct n as [|p|p]; cbn [Z.to_int NilZero.string_of_int].
  - change (NilZero.string_of_uint Decimal.zero)
      with (NilEmpty.string_of_uint Decimal.zero).
    destruct (parseInt_unsigned Decimal.zero tail) as [Hparse _];
      [discriminate | exact Htail | intros _; auto | exact Hparse].
  - pose proof (DecimalPos.Unsigned.to_uint_nonnil p) as Hnil.
    pose proof (DecimalPos.Unsigned.to_uint_nonzero p) as Hnz.
    rewrite (NilZero_string_of_uint _ Hnil).
    destruct (parseInt_unsigned (Pos.to_uint p) tail Hnil Htail) as [-> _];
      [intros Hz; contradiction |].
    rewrite DecimalPos.Unsigned.of_to. reflexivity.
  - pose proof (DecimalPos.Unsigned.to_uint_nonnil p) as Hnil.
    pose proof (DecimalPos.Unsigned.to_uint_nonzero p) as Hnz.
    rewrite (NilZero_string_of_uint _ Hnil), append_String.
    destruct (parseInt_unsigned (Pos.to_uint p) tail Hnil Htail) as [_ ->];
      [intros Hz; contradiction |].
    rewrite DecimalPos.Unsigned.of_to. reflexivity.
Qed.

(** X4: Any of the three numeric settings written as a decimal integer of
    absolute value at most 2^53 - 1, possibly followed by a text that does
    not start with a digit, is configured as that integer. *)
Theorem numeric_settings_read_decimal (env : gmap string string) (cfg : Config)
    (n : Z) (tail : string) :
  startup env = Started cfg ->
  Z.abs n <= 9007199254740991 ->
  digits_prefix 10 tail = [] ->
  (n = 0 -> not_hex_tail tail) ->
  let text := (Z_to_string n ++ tail)%string in
  (env !! "DELAY_MS" = Some text -> DELAY cfg = Int n)
  /\ (env !! "RETRY_DELAY_MS" = Some text -> RETRY_DELAY cfg = Int n)
  /\ (env !! "OFFSET" = Some text -> OFFSET cfg = Int n).
Proof.
  intros Hstart _ Htail Hzero text.
  pose proof (parseInt_decimal n tail Htail Hzero) as Hparse. fold text in Hparse.
  unfold startup in Hstart.
  destruct (hasherSchema_parse _); [| discriminate].
  destruct (falsy_key _); [discriminate |].
  destruct (_ && _); [discriminate |].
  injection Hstart as <-. simpl.
  repeat split; intros ->; exact Hparse.
Qed.

Lemma numeric_settings_read_decimal_witness :
  let env : gmap string string :=
    <["DELAY_MS" := "1000ms"]> {[ "CLERK_SECRET_KEY" := "sk_live_abc" ]} in
  exists cfg, startup env = Started cfg /\ DELAY cfg = Int 1000.
Proof.
  intros env. eexists. split; [reflexivity |].
  match goal with
  | |- DELAY ?cfg = _ =>
      destruct (numeric_settings_read_decimal env cfg 1000 "ms") as (Hdelay & _);
        [reflexivity | simpl; lia | reflexivity | intros Hz; discriminate Hz |]
  end.
  apply Hdelay. reflexivity.
Defined.

(** *** Keys *)

Lemma split_nonempty (sep : ascii) (s : string) : split sep s <> [].
Proof.
  destruct s as [|c s]; simpl; [discriminate |].
  destruct (Ascii.eqb c sep); [discriminate |].
  destruct (split sep s); discriminate.
Qed.

(** X5: Joining the segments of a string with the separator gives the string
    back: [split] loses nothing and invents nothing. *)
Theorem join_split (sep : ascii) (s : string) :
  join (String sep "") (split sep s) = s.
Proof.
  induction s as [|c s IH]; [reflexivity |].
  pose proof (split_nonempty sep s) as Hne. simpl.
  destruct (Ascii.eqb_spec c sep) as [->|Hc].
  - destruct (split sep s) as [|seg segs]; [congruence |].
    change (join (String sep "") ("" :: seg :: segs))
      with (String sep (join (String sep "") (seg :: segs))).
    rewrite IH. reflexivity.
  - destruct (split sep s) as [|seg segs]; [congruence |].
    rewrite <- IH. destruct segs; reflexivity.
Qed.

Lemma split_app (sep : ascii) (a b : string) :
  split sep a = [a] ->
  split sep (a ++ String sep b)%string = a :: split sep b.
Proof.
  revert b. induction a as [|c a IH]; intros b Ha; simpl.
  - rewrite Ascii.eqb_refl. reflexivity.
  - simpl in Ha. destruct (Ascii.eqb c sep); [discriminate |].
    destruct (split sep a) as [|seg segs] eqn:Hsplit.
    + destruct (split_nonempty sep a Hsplit).
    + injection Ha as -> ->. rewrite (IH b eq_refl). reflexivity.
Qed.

(** X6: The kind of a key is its second segment: a key made of a prefix and a
    kind without underscores, with or without a further part, has that
    kind. *)
Theorem second_segment_of_key (prefix kind rest : string) :
  split "_" prefix = [prefix] ->
  split "_" kind = [kind] ->
  second_segment (prefix ++ "_" ++ kind)%string = Some kind
  /\ second_segment (prefix ++ "_" ++ kind ++ "_" ++ rest)%string = Some kind.
Proof.
  intros Hp Hk. unfold second_segment. split.
  - change (prefix ++ "_" ++ kind)%string with (prefix ++ String "_" kind)%string.
    rewrite (split_app "_" prefix kind Hp), Hk. reflexivity.
  - change (prefix ++ "_" ++ kind ++ "_" ++ rest)%string
      with (prefix ++ String "_" (kind ++ String "_" rest))%string.
    rewrite (split_app "_" prefix _ Hp), (split_app "_" kind rest Hk). reflexivity.
Qed.

Lemma second_segment_of_key_witness :
  second_segment "sk_live" = Some "live"
  /\ second_segment "sk_live_abc" = Some "live".
Proof.
  exact (second_segment_of_key "sk" "live" "abc" eq_refl eq_refl).
Defined.

(** A key without an underscore has no second segment. *)
Lemma second_segment_none (key : string) :
  split "_" key = [key] -> second_segment key = None.
Proof. intros Hk. unfold second_segment. rewrite Hk. reflexivity. Qed.

(** *** The two guards together *)

Lemma is_live_spec (a : option string) :
  Cleanup.is_live a = true <-> a = Some "live".
Proof.
  destruct a as [s|]; simpl.
  - rewrite String.eqb_eq. split; congruence.
  - split; discriminate.
Qed.

(** X7: The cleanup script refuses to start exactly when the key is missing or
    empty, or is a production key; no other setting matters. *)
Theorem cleanup_refuses_iff (env : gmap string string) :
  Cleanup.refuses env = true
  <-> falsy_key (env !! "CLERK_SECRET_KEY") = true
      \/ exists key, env !! "CLERK_SECRET_KEY" = Some key
                     /\ second_segment key = Some "live".
Proof.
  unfold Cleanup.refuses, Cleanup.startup.
  destruct (env !! "CLERK_SECRET_KEY") as [key|]; simpl.
  - destruct (String.eqb key ""); [split; auto |].
    destruct (Cleanup.is_live (second_segment key)) eqn:Hlive.
    + apply is_live_spec in Hlive. split; [| reflexivity].
      intros _. right. exists key. auto.
    + split; [discriminate |].
      intros [Hf | (k & [= <-] & Hk)]; [discriminate |].
      apply is_live_spec in Hk. congruence.
  - split; auto.
Qed.

(** X8: With [IMPORT_TO_DEV_INSTANCE] unset or [false], no environment starts
    both scripts: a key the migration accepts is a production key, which
    the cleanup refuses. *)
Theorem guards_exclusive (env : gmap string string) :
  env !! "IMPORT_TO_DEV_INSTANCE" ?? "false" = "false" ->
  Migration.refuses env = false ->
  Cleanup.refuses env = true.
Proof.
  intros Himp.
  unfold Migration.refuses, Migration.startup, Cleanup.refuses, Cleanup.startup.
  rewrite Himp.
  destruct (Migration.hasherSchema_parse _); [| discriminate].
  destruct (env !! "CLERK_SECRET_KEY") as [key|]; simpl; [| reflexivity].
  destruct (String.eqb key ""); [reflexivity |].
  destruct (second_segment key) as [seg|]; simpl; [| discriminate].
  destruct (String.eqb seg "live"); simpl; [reflexivity | discriminate].
Qed.

Lemma guards_exclusive_witness :
  Cleanup.refuses {[ "CLERK_SECRET_KEY" := "sk_live_abc" ]} = true.
Proof.
  apply guards_exclusive; reflexivity.
Defined.

End StartupLaws.

(** ** The cleanup run *)

Module CleanupLaws.

Import Cleanup.

Section Run.

Context `{Collaborators}.

(** X9: With a production key the script stops in its module-level statements:
    no user is listed and none is deleted. *)
Theorem production_key_deletes_nothing (env : gmap string string) (key : string)
    (s0 : Sink) :
  env !! "CLERK_SECRET_KEY" = Some key ->
  second_segment key = Some "live" ->
  program env s0 = StartupThrew ProductionKey
  /\ events (program env s0) = [].
Proof.
  intros Hkey Hlive. unfold program, startup. rewrite Hkey. simpl.
  destruct (String.eqb_spec key "") as [->|Hne]; [discriminate Hlive |].
  rewrite Hlive. simpl. split; reflexivity.
Qed.

Lemma delete_each_ledger (clerkUsers : list ClerkUser) :
  forall w : World,
  exists evs,
    trace (world_of (delete_each clerkUsers w)) = trace w ++ evs
    /\ usersDeleted (world_of (delete_each clerkUsers w))
       = (usersDeleted w + logged_deleted evs)%nat
    /\ (logged_deleted evs + logged_failed evs)%nat = length (delete_calls evs)
    /\ delete_calls evs `prefix_of` map id clerkUsers
    /\ (logged_failed evs <= 1)%nat
    /\ (forall w', delete_each clerkUsers w = Returned w' ->
                   logged_failed evs = 0%nat
                   /\ delete_calls evs = map id clerkUsers).
Proof.
  induction clerkUsers as [|clerkUser rest IH]; intros w.
  - exists []. simpl. rewrite app_nil_r.
    repeat split; auto; try lia; try apply prefix_nil.
  - simpl.
    destruct (users_deleteUser (id clerkUser) (sink w)) as [[error|] s].
    + exists [EDeleteUser (id clerkUser);
              EAppendLog (LogNotDeleted (id clerkUser) error)].
      simpl. rewrite <- app_assoc.
      repeat split; auto; try lia; try discriminate;
        try (apply prefix_cons, prefix_nil).
    + match goal with
      | |- context [delete_each rest ?w1] =>
          destruct (IH w1) as (evs & Htr & Hcount & Hlog & Hpre & Hfail & Hret)
      end.
      exists (EDeleteUser (id clerkUser)
              :: EAppendLog (LogDeleted (id clerkUser)) :: evs).
      split; [rewrite Htr; simpl; rewrite <- !app_assoc; reflexivity |].
      split; [rewrite Hcount; unfold logged_deleted; simpl; lia |].
      split; [unfold logged_deleted, logged_failed in *; simpl in *; lia |].
      split; [simpl; apply prefix_cons; exact Hpre |].
      split; [exact Hfail |].
      intros w' Hw'. destruct (Hret w' Hw') as [Hf Hd].
      split; [exact Hf | simpl; f_equal; exact Hd].
Qed.

(** X10: In every outcome of [main], [usersDeleted] grows by the number of
    [deleted: true] entries logged; every delete call has exactly one log
    entry; the delete calls follow the listed users in order; at most one
    [deleted: false] entry is ever written, and none when [main] returns,
    in which case every listed user was deleted. *)
Theorem cleanup_ledger (w : World) :
  exists evs,
    trace (world_of (main w)) = trace w ++ EGetUserList :: evs
    /\ usersDeleted (world_of (main w)) = (usersDeleted w + logged_deleted evs)%nat
    /\ (logged_deleted evs + logged_failed evs)%nat = length (delete_calls evs)
    /\ (logged_failed evs <= 1)%nat
    /\ (forall clerkUsers s, users_getUserList (sink w) = (inr clerkUsers, s) ->
          delete_calls evs `prefix_of` map id clerkUsers)
    /\ (forall w', main w = Returned w' ->
          logged_failed evs = 0%nat
          /\ exists clerkUsers s,
               users_getUserList (sink w) = (inr clerkUsers, s)
               /\ delete_calls evs = map id clerkUsers).
Proof.
  unfold main.
  destruct (users_getUserList (sink w)) as [[error|clerkUsers] s].
  - exists []. simpl. repeat split; auto; try lia; try discriminate.
  - destruct (delete_each_ledger clerkUsers (with_sink s (emit EGetUserList w)))
      as (evs & Htr & Hcount & Hlog & Hpre & Hfail & Hret).
    exists evs. rewrite Htr, Hcount. simpl. rewrite <- app_assoc.
    split; [reflexivity |]. split; [reflexivity |].
    split; [exact Hlog |]. split; [exact Hfail |]. split.
    + intros users s' [= <- _]. exact Hpre.
    + intros w' Hw'. destruct (Hret w' Hw') as [Hf Hd].
      split; [exact Hf |]. exists clerkUsers, s. split; [reflexivity | exact Hd].
Qed.

End Run.

Lemma production_key_deletes_nothing_witness :
  let clerk := poisoned "" in
  @program clerk {[ "CLERK_SECRET_KEY" := "sk_live_abc" ]} [mkClerkUser "u1"]
  = @StartupThrew clerk ProductionKey
  /\ @events clerk
       (@program clerk {[ "CLERK_SECRET_KEY" := "sk_live_abc" ]} [mkClerkUser "u1"])
     = [].
Proof.
  intros clerk.
  apply (@production_key_deletes_nothing clerk _ "sk_live_abc"); reflexivity.
Defined.

Lemma cleanup_ledger_witness :
  let clerk := poisoned "u2" in
  let w := @mkWorld clerk 0 [mkClerkUser "u1"; mkClerkUser "u2"; mkClerkUser "u3"] [] in
  exists evs,
    @trace clerk (@world_of clerk (@main clerk w)) = EGetUserList :: evs
    /\ @usersDeleted clerk (@world_of clerk (@main clerk w)) = logged_deleted evs
    /\ (logged_deleted evs + logged_failed evs)%nat = length (delete_calls evs)
    /\ (logged_failed evs <= 1)%nat.
Proof.
  intros clerk w.
  destruct (@cleanup_ledger clerk w) as (evs & Htr & Hcount & Hlog & Hfail & _).
  exists evs. repeat split; assumption.
Defined.

End CleanupLaws.
(** ** Records on their way to the provider *)

Module RecordLaws.

Import Migration.

(** X11: Merging is idempotent, and leaves every record as it is when there are
    no auxiliary records. *)
Theorem merge_idempotent (users phones : list JSObject) :
  parsedUsersWithPhoneNumbers (parsedUsersWithPhoneNumbers users phones) phones
  = parsedUsersWithPhoneNumbers users phones
  /\ parsedUsersWithPhoneNumbers users [] = users.
Proof.
  unfold parsedUsersWithPhoneNumbers. split.
  - rewrite map_map. apply map_ext. intros user.
    unfold merge_user at 2.
    destruct (find _ phones) as [found|] eqn:Hfind; [| unfold merge_user; rewrite Hfind; reflexivity].
    destruct (found !! "phone") as [phone|] eqn:Hphone;
      [| unfold merge_user; rewrite Hfind, Hphone; reflexivity].
    destruct (truthy phone) eqn:Ht;
      [| unfold merge_user; rewrite Hfind, Hphone, Ht; reflexivity].
    unfold merge_user.
    rewrite lookup_insert_ne by discriminate.
    rewrite Hfind, Hphone, Ht. apply insert_insert_eq.
  - induction users as [|user users IH]; simpl; [reflexivity |].
    rewrite IH. reflexivity.
Qed.

Section Validation.

Context `{Collaborators}.

Lemma zod_optional_issue {A} (check : option JSValue -> option A)
    (v : option JSValue) (path : string) :
  issue path (zod_optional check v) = [] \/ issue path (zod_optional check v) = [path].
Proof. destruct (zod_optional check v); simpl; auto. Qed.

(** X12: A validation error names at least one property of the record,
    and every property it names is one of the six the schema declares. *)
Theorem validation_error_paths (userData : JSObject) (err : list string) :
  userSchema_safeParse userData = inl err ->
  err <> [] /\ Forall (fun path => path ∈ schema_paths) err.
Proof.
  unfold userSchema_safeParse, schema_paths.
  destruct (zod_string _) as [a|], (zod_email _) as [b|],
    (zod_optional zod_string (userData !! "firstName")) as [c|],
    (zod_optional zod_string (userData !! "lastName")) as [d|],
    (zod_optional zod_string (userData !! "password")) as [e|],
    (zod_optional zod_string_array _) as [f|];
    intros [= <-]; simpl; (split; [discriminate |]);
    repeat constructor;
    repeat first [apply list_elem_of_here | apply list_elem_of_further].
Qed.

Lemma zod_string_spec (v : option JSValue) (s : string) :
  zod_string v = Some s <-> v = Some (JStr s).
Proof.
  destruct v as [[]|]; simpl; split; congruence.
Qed.

Lemma zod_email_spec (v : option JSValue) (s : string) :
  zod_email v = Some s <-> v = Some (JStr s) /\ is_email s = true.
Proof.
  destruct v as [[| | |s'| |]|]; simpl; try (split; [discriminate | intros [[=] _]]).
  destruct (is_email s') eqn:He; split.
  - intros [= <-]. auto.
  - intros [[= <-] _]. reflexivity.
  - discriminate.
  - intros [[= <-] He']. congruence.
Qed.

(** What a successful parse says about the raw record. *)
Lemma safeParse_fields (userData : JSObject) (data : User) :
  userSchema_safeParse userData = inr data ->
  zod_string (userData !! "userId") = Some (userId data)
  /\ zod_email (userData !! "email") = Some (email data)
  /\ zod_optional zod_string (userData !! "firstName") = Some (firstName data)
  /\ zod_optional zod_string (userData !! "lastName") = Some (lastName data)
  /\ zod_optional zod_string (userData !! "password") = Some (password data)
  /\ zod_optional zod_string_array (userData !! "phoneNumber")
     = Some (phoneNumber data).
Proof.
  unfold userSchema_safeParse.
  destruct (zod_string _) as [a|], (zod_email _) as [b|],
    (zod_optional zod_string (userData !! "firstName")) as [c|],
    (zod_optional zod_string (userData !! "lastName")) as [d|],
    (zod_optional zod_string (userData !! "password")) as [e|],
    (zod_optional zod_string_array _) as [f|];
    intros [= <-]; simpl; auto 10.
Qed.

Lemma safeParse_of_fields (userData : JSObject) a b c d e f :
  zod_string (userData !! "userId") = Some a ->
  zod_email (userData !! "email") = Some b ->
  zod_optional zod_string (userData !! "firstName") = Some c ->
  zod_optional zod_string (userData !! "lastName") = Some d ->
  zod_optional zod_string (userData !! "password") = Some e ->
  zod_optional zod_string_array (userData !! "phoneNumber") = Some f ->
  userSchema_safeParse userData = inr (mkUser a b c d e f).
Proof.
  intros Ha Hb Hc Hd He Hf. unfold userSchema_safeParse.
  rewrite Ha, Hb, Hc, Hd, He, Hf. reflexivity.
Qed.

Variable cfg : Config.

(** X13: A record that parses is submitted under its own identity: the raw
    [userId] and [email] are strings, the e-mail passes the format test, and
    the create call carries them as [externalId] and as the only
    [emailAddress]; a digest is sent with the configured hasher, and
    otherwise the password requirement is waived. *)
Theorem parsed_record_identity (userData : JSObject) (data : User) :
  userSchema_safeParse userData = inr data ->
  let p := createUser cfg data in
  userData !! "userId" = Some (JStr (externalId p))
  /\ userData !! "email" = Some (JStr (email data))
  /\ emailAddress p = [email data]
  /\ is_email (email data) = true
  /\ (passwordDigest p = None <-> skipPasswordRequirement p = Some true)
  /\ (forall digest, passwordDigest p = Some digest ->
        digest <> ""
        /\ userData !! "password" = Some (JStr digest)
        /\ passwordHasher p = Some (PASSWORD_HASHER cfg)).
Proof.
  intros Hp p.
  destruct (safeParse_fields _ _ Hp) as (Hid & Hem & _ & _ & Hpw & _).
  apply zod_string_spec in Hid. apply zod_email_spec in Hem as [Hem Hok].
  assert (Hext : externalId p = userId data)
    by (unfold p, createUser; destruct (has_password data); reflexivity).
  assert (Hmail : emailAddress p = [email data])
    by (unfold p, createUser; destruct (has_password data); reflexivity).
  assert (Hpass : password data = None
                  \/ password data = Some ""
                  \/ exists s, password data = Some s /\ s <> "")
    by (destruct (password data) as [s|]; [| auto];
        destruct (String.eqb_spec s ""); subst; eauto).
  rewrite Hext.
  split; [exact Hid |]. split; [exact Hem |]. split; [exact Hmail |].
  split; [exact Hok |].
  unfold p, createUser, has_password.
  destruct Hpass as [Hnone | [Hempty | (s & Hs & Hne)]].
  - rewrite Hnone. simpl. split; [split; reflexivity | discriminate].
  - rewrite Hempty. simpl. split; [split; reflexivity | discriminate].
  - rewrite Hs. apply String.eqb_neq in Hne as Hneb. rewrite Hneb. simpl.
    split; [split; discriminate |].
    intros digest Hd. injection Hd as <-.
    split; [exact Hne |]. split; [| reflexivity].
    rewrite Hs in Hpw.
    destruct (userData !! "password") as [[]|]; simpl in Hpw; congruence.
Qed.

Lemma merge_user_cases (phones : list JSObject) (userData : JSObject) :
  merge_user phones userData = userData
  \/ exists found phone,
       first_match phones userData found
       /\ truthy_phone found phone
       /\ merge_user phones userData
          = <["phoneNumber" := JArr [JStr (to_String phone)]]> userData.
Proof.
  unfold merge_user.
  destruct (find _ phones) as [found|] eqn:Hfind; [| auto].
  apply MigrationFacts.find_first_match in Hfind.
  destruct (found !! "phone") as [phone|] eqn:Hphone; [| auto].
  destruct (truthy phone) eqn:Ht; [| auto].
  right. exists found, phone. repeat split; auto.
Qed.

Lemma merge_user_matched (phones : list JSObject) (userData found : JSObject)
    (phone : JSValue) :
  first_match phones userData found ->
  truthy_phone found phone ->
  merge_user phones userData
  = <["phoneNumber" := JArr [JStr (to_String phone)]]> userData.
Proof.
  intros Hfound [Hphone Ht]. unfold merge_user.
  apply MigrationFacts.find_first_match in Hfound.
  rewrite Hfound, Hphone, Ht. reflexivity.
Qed.

(** X14: Merging never invalidates a record: a record that parses still parses
    after the merge, with every field as before except [phoneNumber], which
    is either as before or the one-element list of the matched phone. *)
Theorem merge_keeps_valid (phones : list JSObject) (userData : JSObject)
    (data : User) :
  userSchema_safeParse userData = inr data ->
  exists numbers,
    userSchema_safeParse (merge_user phones userData)
    = inr (mkUser (userId data) (email data) (firstName data) (lastName data)
             (password data) numbers)
    /\ (numbers = phoneNumber data
        \/ exists found phone,
             first_match phones userData found
             /\ truthy_phone found phone
             /\ numbers = Some [to_String phone]).
Proof.
  intros Hp.
  destruct (merge_user_cases phones userData)
    as [-> | (found & phone & Hfound & Hphone & ->)].
  - exists (phoneNumber data). split; [| auto]. rewrite Hp. destruct data; reflexivity.
  - exists (Some [to_String phone]). split; [| eauto 6].
    destruct (safeParse_fields _ _ Hp) as (Ha & Hb & Hc & Hd & He & _).
    apply safeParse_of_fields;
      rewrite ?lookup_insert_eq, ?lookup_insert_ne by discriminate;
      auto.
Qed.

(** X15: The merged phone on its way out: when the first matching auxiliary
    record has a truthy phone and the merged record parses, the parsed
    record holds exactly that phone; the create call carries it when the
    record has a non-empty password digest, and carries no phone number at
    all when it has none. *)
Theorem merged_phone_in_create_call (phones : list JSObject)
    (userData found : JSObject) (phone : JSValue) (data : User) :
  first_match phones userData found ->
  truthy_phone found phone ->
  userSchema_safeParse (merge_user phones userData) = inr data ->
  phoneNumber data = Some [to_String phone]
  /\ cp_phoneNumber (createUser cfg data)
     = if has_password data then Some [to_String phone] else None.
Proof.
  intros Hfound Hphone Hp.
  rewrite (merge_user_matched _ _ _ _ Hfound Hphone) in Hp.
  destruct (safeParse_fields _ _ Hp) as (_ & _ & _ & _ & _ & Hnum).
  rewrite lookup_insert_eq in Hnum. simpl in Hnum. injection Hnum as Hnum.
  split; [congruence |].
  unfold createUser. destruct (has_password data); simpl; congruence.
Qed.

End Validation.

Lemma validation_error_paths_witness :
  ["email"] <> [] /\ Forall (fun path => path ∈ schema_paths) ["email"].
Proof.
  apply (@validation_error_paths scripted {[ "userId" := JStr "bad1" ]} ["email"]).
  reflexivity.
Defined.

Lemma parsed_record_identity_witness :
  sample_user "u1" !! "userId" = Some (JStr "u1")
  /\ @is_email scripted "a@example.org" = true.
Proof.
  destruct (@parsed_record_identity scripted sample_cfg (sample_user "u1")
              (mkUser "u1" "a@example.org" None None None None))
    as (Hid & _ & _ & Hok & _); [reflexivity |].
  split; [exact Hid | exact Hok].
Defined.

Lemma merge_keeps_valid_witness :
  let aux : JSObject := <["id" := JStr "u1"]> {[ "phone" := JNum 5551234 ]} in
  exists numbers,
    @userSchema_safeParse scripted (merge_user [aux] (sample_user "u1"))
    = inr (mkUser "u1" "a@example.org" None None None numbers).
Proof.
  intros aux.
  destruct (@merge_keeps_valid scripted [aux] (sample_user "u1")
              (mkUser "u1" "a@example.org" None None None None))
    as (numbers & Hparse & _); [reflexivity |].
  exists numbers. exact Hparse.
Defined.

Lemma merged_phone_in_create_call_witness :
  let aux : JSObject := <["id" := JStr "u1"]> {[ "phone" := JNum 5551234 ]} in
  let data := mkUser "u1" "a@example.org" None None None (Some ["5551234"]) in
  phoneNumber data = Some ["5551234"]
  /\ cp_phoneNumber (createUser sample_cfg data) = None.
Proof.
  intros aux data.
  apply (@merged_phone_in_create_call scripted sample_cfg [aux] (sample_user "u1")
           aux (JNum 5551234) data).
  - exists [], []. split; [reflexivity | split; [constructor | reflexivity]].
  - split; reflexivity.
  - reflexivity.
Defined.

End RecordLaws.
(** ** The driver over whole runs *)

Module DriverLaws.

Import Migration.

Section Runs.

Context `{Collaborators}.
Variable cfg : Config.

(** X16: A record the provider accepts, at once or after [k] rate-limited
    attempts, is counted in [migrated] and leaves no entry in the log. *)
Theorem accepted_record (userData : JSObject) (data : User) (w : World)
    (k : nat) (sk s' : Sink) (fuel : nat) :
  userSchema_safeParse userData = inr data ->
  rate_limited k (createUser cfg data) (sink w) = Some sk ->
  users_createUser (createUser cfg data) sk = (Created, s') ->
  (k < fuel)%nat ->
  let p := createUser cfg data in
  let evs := retry_events cfg k p ++ [ECreateUser p] in
  processUserToClerk cfg fuel userData w
  = Done (mkWorld (S (migrated w)) (alreadyExists w) s' (trace w ++ evs))
  /\ log_entries evs = []
  /\ create_calls evs = replicate (S k) p.
Proof.
  intros Hp Hk Hc Hfuel p evs. split; [| split].
  - replace fuel with (k + S (fuel - S k))%nat by lia.
    rewrite (MigrationFacts.process_after_retries cfg k userData data w sk _ Hp Hk).
    rewrite (MigrationFacts.process_created cfg _ data _ s' _ Hp) by exact Hc.
    unfold after_retries. simpl. rewrite <- app_assoc. reflexivity.
  - unfold evs, retry_events. clear. induction k as [|k IH]; [reflexivity | exact IH].
  - unfold evs, retry_events. clear. induction k as [|k IH]; [reflexivity |].
    simpl in *. rewrite IH. reflexivity.
Qed.

(** X17: A rejection whose status is neither 422 nor 429, or that has no status
    at all, ends the record: it is logged with the record's [userId], no
    counter moves, no further create call is made, and the loop goes on. *)
Theorem other_rejection_logged (userData : JSObject) (data : User) (w : World)
    (e : ClerkError) (s' : Sink) (fuel : nat) (rest : list JSObject) :
  userSchema_safeParse userData = inr data ->
  users_createUser (createUser cfg data) (sink w) = (Rejected e, s') ->
  status e <> Some 422 ->
  status e <> Some 429 ->
  let p := createUser cfg data in
  let entry := mkLogEntry (userData !! "userId") (ClerkThrown e) in
  processUserToClerk cfg (S fuel) userData w
  = Done (mkWorld (migrated w) (alreadyExists w) s'
            (trace w ++ [ECreateUser p; EAppendLog entry]))
  /\ for_each_user cfg (S fuel) (userData :: rest) w
     = for_each_user cfg (S fuel) rest
         (mkWorld (migrated w) (alreadyExists w) s'
            (trace w ++ [ESleep (DELAY cfg); ECreateUser p; EAppendLog entry])).
Proof.
  intros Hp Hc H422 H429 p entry.
  assert (Hno : forall code, status e <> Some code ->
                             status_is (ClerkThrown e) code = false).
  { intros code Hne. unfold status_is. simpl.
    destruct (status e) as [n|]; [| reflexivity].
    apply Z.eqb_neq. congruence. }
  assert (Hend : forall w0, sink w0 = sink w ->
            processUserToClerk cfg (S fuel) userData w0
            = Done (mkWorld (migrated w0) (alreadyExists w0) s'
                      (trace w0 ++ [ECreateUser p; EAppendLog entry]))).
  { intros w0 Hs.
    rewrite (MigrationFacts.process_rejected cfg _ data _ e s' _ Hp)
      by (rewrite ?Hs; auto).
    rewrite (Hno 422 H422). reflexivity. }
  split; [apply Hend; reflexivity |].
  apply MigrationFacts.for_each_user_step.
  rewrite Hend by reflexivity. unfold cooldown, emit. simpl.
  rewrite <- app_assoc. reflexivity.
Qed.

(** X18: Against a provider that answers 429 to a record for ever, no bound on
    the attempts lets the call return: after [fuel] attempts it has made
    [fuel] create calls and [fuel] cooldowns, moved no counter and logged
    nothing, and the loop never reaches the next record. *)
Theorem rate_limited_for_ever (userData : JSObject) (data : User) (w : World) :
  userSchema_safeParse userData = inr data ->
  (forall k, is_Some (rate_limited k (createUser cfg data) (sink w))) ->
  forall fuel rest,
  exists sk,
    processUserToClerk cfg fuel userData w
    = Spinning (mkWorld (migrated w) (alreadyExists w) sk
                  (trace w ++ retry_events cfg fuel (createUser cfg data)))
    /\ for_each_user cfg fuel (userData :: rest) w
       = Spinning (mkWorld (migrated w) (alreadyExists w) sk
                     (trace w ++ ESleep (DELAY cfg)
                        :: retry_events cfg fuel (createUser cfg data))).
Proof.
  intros Hp Hlimited fuel rest.
  destruct (Hlimited fuel) as [sk Hk]. exists sk.
  assert (Hspin : forall w0, sink w0 = sink w ->
            processUserToClerk cfg fuel userData w0
            = Spinning (mkWorld (migrated w0) (alreadyExists w0) sk
                          (trace w0 ++ retry_events cfg fuel (createUser cfg data)))).
  { intros w0 Hs. replace fuel with (fuel + 0)%nat at 1 by lia.
    rewrite (MigrationFacts.process_after_retries cfg fuel userData data w0 sk 0 Hp)
      by (rewrite Hs; exact Hk).
    reflexivity. }
  split; [apply Hspin; reflexivity |].
  simpl. rewrite Hspin by reflexivity. unfold cooldown, emit. simpl.
  rewrite <- app_assoc. reflexivity.
Qed.

Lemma process_fuel_monotone (fuel : nat) :
  forall fuel' userData w w',
    processUserToClerk cfg fuel userData w = Done w' ->
    (fuel <= fuel')%nat ->
    processUserToClerk cfg fuel' userData w = Done w'.
Proof.
  induction fuel as [|fuel IH]; intros fuel' userData w w' Hdone Hle;
    [discriminate |].
  destruct fuel' as [|fuel']; [lia |].
  cbn [processUserToClerk] in *.
  destruct (attempt cfg userData w) as [[error|] w1]; [| exact Hdone].
  destruct (status_is error 422); [exact Hdone |].
  destruct (status_is error 429); [| exact Hdone].
  apply (IH fuel'); [exact Hdone | lia].
Qed.

(** The bound on attempts is only a device of the embedding: a loop that
    completes within a bound completes alike under every larger one. *)
Lemma run_fuel_monotone (fuel fuel' : nat) (users : list JSObject) :
  (fuel <= fuel')%nat ->
  forall w w',
    for_each_user cfg fuel users w = Done w' ->
    for_each_user cfg fuel' users w = Done w'.
Proof.
  intros Hle. induction users as [|userData rest IH]; intros w w' Hdone;
    [exact Hdone |].
  simpl in *.
  destruct (processUserToClerk cfg fuel userData (cooldown cfg w)) as [w1|w1] eqn:Hr;
    [| discriminate].
  rewrite (process_fuel_monotone fuel fuel' _ _ _ Hr Hle). apply IH, Hdone.
Qed.

(** *** Counters against the log *)

Lemma log_entries_app (a b : list Event) :
  log_entries (a ++ b) = log_entries a ++ log_entries b.
Proof. apply flat_map_app. Qed.

Lemma create_calls_app (a b : list Event) :
  create_calls (a ++ b) = create_calls a ++ create_calls b.
Proof. apply flat_map_app. Qed.

Lemma logged_conflicts_app (a b : list Event) :
  logged_conflicts (a ++ b) = (logged_conflicts a + logged_conflicts b)%nat.
Proof.
  unfold logged_conflicts.
  rewrite log_entries_app, List.filter_app, length_app. reflexivity.
Qed.

Lemma sleeps_of_app (ms : JSNum) (a b : list Event) :
  sleeps_of ms (a ++ b) = (sleeps_of ms a + sleeps_of ms b)%nat.
Proof. unfold sleeps_of. rewrite List.filter_app, length_app. reflexivity. Qed.

Lemma JSNum_eqb_refl (a : JSNum) : JSNum_eqb a a = true.
Proof. destruct a; simpl; [reflexivity | apply Z.eqb_refl]. Qed.

(** What one returned call adds: either [migrated] moves and nothing is
    logged, or exactly one entry is logged and [alreadyExists] moves when
    that entry's status is 422; none of its sleeps is a pacing delay. *)
Lemma process_ledger (fuel : nat) :
  forall userData w w',
    processUserToClerk cfg fuel userData w = Done w' ->
    exists evs,
      trace w' = trace w ++ evs
      /\ (migrated w' + length (log_entries evs) = S (migrated w))%nat
      /\ (length (log_entries evs) <= 1)%nat
      /\ alreadyExists w' = (alreadyExists w + logged_conflicts evs)%nat
      /\ (JSNum_eqb (RETRY_DELAY cfg) (DELAY cfg) = false ->
          sleeps_of (DELAY cfg) evs = 0%nat).
Proof.
  induction fuel as [|fuel IH]; intros userData w w'; [discriminate |].
  cbn [processUserToClerk].
  destruct (userSchema_safeParse userData) as [err|data] eqn:Hp.
  - rewrite (MigrationFacts.attempt_invalid cfg _ _ _ Hp).
    rewrite !MigrationFacts.status_is_zod. intros [= <-].
    eexists. split; [reflexivity |]. simpl. repeat split; auto; lia.
  - rewrite (MigrationFacts.attempt_valid cfg _ _ _ Hp). simpl.
    destruct (users_createUser _ _) as [[|e] s]; simpl.
    + intros [= <-]. eexists. split; [reflexivity |]. simpl.
      repeat split; auto; lia.
    + destruct (status_is (ClerkThrown e) 422) eqn:H422.
      { intros [= <-].
        exists [ECreateUser (createUser cfg data);
                EAppendLog (mkLogEntry (userData !! "userId") (ClerkThrown e))].
        simpl. rewrite <- app_assoc. split; [reflexivity |].
        unfold logged_conflicts, status_is in *. simpl in *.
        destruct (status e) as [n|]; [| discriminate]. rewrite H422. simpl.
        repeat split; auto; lia. }
      destruct (status_is (ClerkThrown e) 429).
      { intros Hdone. destruct (IH _ _ _ Hdone) as (evs & Htr & Hm & Hl & Ha & Hs).
        exists (ECreateUser (createUser cfg data) :: ESleep (RETRY_DELAY cfg) :: evs).
        rewrite Htr. simpl. rewrite <- !app_assoc.
        split; [reflexivity |]. split; [exact Hm |]. split; [exact Hl |].
        split; [exact Ha |].
        intros Hne. unfold sleeps_of in *. simpl. rewrite Hne. apply Hs, Hne. }
      intros [= <-].
      exists [ECreateUser (createUser cfg data);
              EAppendLog (mkLogEntry (userData !! "userId") (ClerkThrown e))].
      simpl. rewrite <- app_assoc. split; [reflexivity |].
      unfold logged_conflicts, status_is in *. simpl in *.
      destruct (status e) as [n|]; simpl; [rewrite H422; simpl |];
        repeat split; auto; lia.
Qed.

Lemma run_ledger_pacing (fuel : nat) (users : list JSObject) :
  forall w w',
    for_each_user cfg fuel users w = Done w' ->
    exists evs,
      trace w' = trace w ++ evs
      /\ (migrated w' + length (log_entries evs) = migrated w + length users)%nat
      /\ alreadyExists w' = (alreadyExists w + logged_conflicts evs)%nat
      /\ (JSNum_eqb (RETRY_DELAY cfg) (DELAY cfg) = false ->
          sleeps_of (DELAY cfg) evs = length users).
Proof.
  induction users as [|userData rest IH]; intros w w' Hdone.
  - injection Hdone as <-. exists []. rewrite app_nil_r. simpl.
    repeat split; auto; lia.
  - simpl in Hdone.
    destruct (processUserToClerk cfg fuel userData (cooldown cfg w)) as [w1|w1] eqn:Hr;
      [| discriminate].
    destruct (process_ledger _ _ _ _ Hr) as (seg & Htr1 & Hm1 & _ & Ha1 & Hs1).
    destruct (IH _ _ Hdone) as (evs & Htr & Hm & Ha & Hs).
    exists (ESleep (DELAY cfg) :: seg ++ evs).
    split; [| split; [| split]].
    + rewrite Htr, Htr1. simpl. rewrite <- !app_assoc. reflexivity.
    + change (log_entries (ESleep (DELAY cfg) :: seg ++ evs))
        with (log_entries (seg ++ evs)).
      rewrite log_entries_app, length_app. simpl in *. lia.
    + change (logged_conflicts (ESleep (DELAY cfg) :: seg ++ evs))
        with (logged_conflicts (seg ++ evs)).
      rewrite logged_conflicts_app. simpl in *. lia.
    + intros Hne.
      change (ESleep (DELAY cfg) :: seg ++ evs)
        with ([ESleep (DELAY cfg)] ++ seg ++ evs).
      rewrite !sleeps_of_app, (Hs1 Hne), (Hs Hne).
      unfold sleeps_of. simpl. rewrite JSNum_eqb_refl. reflexivity.
Qed.

(** X20: After a run that completes, every record is accounted for exactly once:
    [migrated] grew by the number of records that left no log entry, and
    [alreadyExists] by the number of entries logged with status 422. *)
Theorem run_ledger (fuel : nat) (users : list JSObject) (w w' : World) :
  for_each_user cfg fuel users w = Done w' ->
  exists evs,
    trace w' = trace w ++ evs
    /\ (migrated w' + length (log_entries evs) = migrated w + length users)%nat
    /\ alreadyExists w' = (alreadyExists w + logged_conflicts evs)%nat.
Proof.
  intros Hdone.
  destruct (run_ledger_pacing fuel users w w' Hdone) as (evs & Htr & Hm & Ha & _).
  exists evs. auto.
Qed.

(** X21: The pacing delay is slept once per record, whatever becomes of the
    record and however often it is retried (the two delays being different
    numbers, so that the sleeps can be told apart). *)
Theorem pacing_once_per_record (fuel : nat) (users : list JSObject) (w w' : World) :
  for_each_user cfg fuel users w = Done w' ->
  JSNum_eqb (RETRY_DELAY cfg) (DELAY cfg) = false ->
  exists evs,
    trace w' = trace w ++ evs
    /\ sleeps_of (DELAY cfg) evs = length users.
Proof.
  intros Hdone Hne.
  destruct (run_ledger_pacing fuel users w w' Hdone) as (evs & Htr & _ & _ & Hs).
  exists evs. auto.
Qed.

(** *** Offsets and resuming *)

Lemma for_each_user_app (fuel : nat) (a b : list JSObject) :
  forall w,
    for_each_user cfg fuel (a ++ b) w
    = match for_each_user cfg fuel a w with
      | Done w' => for_each_user cfg fuel b w'
      | Spinning w' => Spinning w'
      end.
Proof.
  induction a as [|userData a IH]; intros w; simpl; [reflexivity |].
  destruct (processUserToClerk cfg fuel userData (cooldown cfg w)); [apply IH | reflexivity].
Qed.

(** X22: Resuming: if a run over the first [n] records completed, a run over the
    whole list from the same start does what a run with [OFFSET] set to [n]
    does from where the first one ended. *)
Theorem resume_with_offset (fuel n : nat) (users : list JSObject) (w w1 : World) :
  for_each_user cfg fuel (take n users) w = Done w1 ->
  for_each_user cfg fuel users w
  = for_each_user cfg fuel (slice (Int (Z.of_nat n)) users) w1.
Proof.
  intros Hfirst.
  rewrite (MigrationFacts.slice_nonneg (Z.of_nat n) users) by lia.
  rewrite Nat2Z.id.
  rewrite <- (take_drop n users) at 1.
  rewrite for_each_user_app, Hfirst. reflexivity.
Qed.

(** X23: Whatever [OFFSET] is, the records processed are a suffix of the merged
    list: all of it when [OFFSET] is not a number, its last [-OFFSET] records
    when [OFFSET] is negative, and none when [OFFSET] reaches the length. *)
Theorem offset_selects_suffix {A} (k : JSNum) (l : list A) :
  exists skipped,
    l = skipped ++ slice k l
    /\ match k with
       | NaN => skipped = []
       | Int z =>
           length (slice k l)
           = if z <? 0 then Nat.min (length l) (Z.to_nat (- z))
             else (length l - Z.to_nat z)%nat
       end.
Proof.
  destruct k as [|z]; simpl.
  - exists []. auto.
  - destruct (z <? 0) eqn:Hz.
    + apply Z.ltb_lt in Hz.
      exists (take (Z.to_nat (Z.max (Z.of_nat (length l) + z) 0)) l).
      rewrite take_drop, length_drop. split; [reflexivity | lia].
    + apply Z.ltb_ge in Hz.
      exists (take (Z.to_nat (Z.min z (Z.of_nat (length l)))) l).
      rewrite take_drop, length_drop. split; [reflexivity | lia].
Qed.

(** *** [main] and its files *)

(** X25: With [OFFSET] at or beyond the number of records, [main] reads its two
    files and completes: no sleep, no create call, no log entry, no counter
    moved. *)
Theorem offset_beyond_end (fuel : nat) (argv : list string)
    (files : string -> option (list JSObject)) (w : World)
    (users phones : list JSObject) (z : Z) :
  OFFSET cfg = Int z ->
  Z.of_nat (length users) <= z ->
  files (argv !! 2%nat ?? "users.json") = Some users ->
  files (argv !! 3%nat ?? "users-phone-numbers.json") = Some phones ->
  main cfg fuel argv files w
  = MainDone (mkWorld (migrated w) (alreadyExists w) (sink w)
                (trace w ++ [EReadFile (argv !! 2%nat ?? "users.json");
                             EReadFile (argv !! 3%nat ?? "users-phone-numbers.json")])).
Proof.
  intros Hoff Hz Hu Hp. unfold main. rewrite Hu, Hp, Hoff.
  rewrite MigrationFacts.slice_nonneg by lia.
  rewrite drop_ge
    by (unfold parsedUsersWithPhoneNumbers; rewrite length_map; lia).
  simpl. unfold emit. simpl. rewrite <- app_assoc. reflexivity.
Qed.

(** *** What reaches the provider and the log *)

Lemma segmented_origin (users : list JSObject) (evs : list Event) :
  Segmented cfg users evs ->
  Forall (fun p => exists userData data,
              userData ∈ users
              /\ userSchema_safeParse userData = inr data
              /\ p = createUser cfg data)
         (create_calls evs)
  /\ Forall (fun entry => exists userData,
                userData ∈ users /\ log_userId entry = userData !! "userId")
            (log_entries evs).
Proof.
  induction 1 as [|userData rest seg evs Hseg Hrest [IHc IHl]]; [split; constructor |].
  change (ESleep (DELAY cfg) :: seg ++ evs) with ([ESleep (DELAY cfg)] ++ seg ++ evs).
  rewrite !create_calls_app, !log_entries_app. simpl.
  split; apply Forall_app; split.
  - clear -Hseg. induction Hseg as [|ev seg Hev Hseg IH]; [constructor |].
    destruct ev; simpl; try exact IH.
    destruct Hev as (data & Hp & ->). constructor; [| exact IH].
    exists userData, data. split; [apply list_elem_of_here | auto].
  - eapply Forall_impl; [exact IHc |].
    intros p (u & data & Hin & Hp & ->). exists u, data.
    split; [apply list_elem_of_further, Hin | auto].
  - clear -Hseg. induction Hseg as [|ev seg Hev Hseg IH]; [constructor |].
    destruct ev; simpl; try exact IH.
    constructor; [| exact IH].
    exists userData. split; [apply list_elem_of_here | exact Hev].
  - eapply Forall_impl; [exact IHl |].
    intros entry (u & Hin & Hid). exists u.
    split; [apply list_elem_of_further, Hin | exact Hid].
Qed.

Lemma elem_of_take_elem {A} (x : A) (n : nat) (l : list A) :
  x ∈ take n l -> x ∈ l.
Proof.
  intros Hin. apply elem_of_take in Hin as (i & Hi & _).
  eapply list_elem_of_lookup_2. exact Hi.
Qed.

(** X26: Whatever the run, and whether or not it completes, every create call
    is made for a record of the list that passed validation, with the
    arguments [createUser] builds from it, and every log entry carries the
    [userId] of a record of the list. *)
Theorem calls_and_entries_have_a_record (fuel : nat) (users : list JSObject)
    (w : World) :
  exists evs,
    trace (world_of (for_each_user cfg fuel users w)) = trace w ++ evs
    /\ Forall (fun p => exists userData data,
                  userData ∈ users
                  /\ userSchema_safeParse userData = inr data
                  /\ p = createUser cfg data)
              (create_calls evs)
    /\ Forall (fun entry => exists userData,
                  userData ∈ users /\ log_userId entry = userData !! "userId")
              (log_entries evs).
Proof.
  destruct (MigrationFacts.for_each_user_segmented cfg fuel users w)
    as (k & evs & _ & Htr & Hseg & _).
  exists evs. split; [exact Htr |].
  destruct (segmented_origin _ _ Hseg) as [Hc Hl].
  split.
  - eapply Forall_impl; [exact Hc |].
    intros p (u & data & Hin & Hp & ->). exists u, data.
    split; [| auto]. eapply elem_of_take_elem. exact Hin.
  - eapply Forall_impl; [exact Hl |].
    intros entry (u & Hin & Hid). exists u.
    split; [| exact Hid]. eapply elem_of_take_elem. exact Hin.
Qed.

End Runs.

Lemma accepted_record_witness :
  @processUserToClerk scripted sample_cfg 1 (sample_user "u1") (sample_world [])
  = @Done scripted (@mkWorld scripted 1 0 [] [ECreateUser (sample_params "u1")]).
Proof.
  destruct (@accepted_record scripted sample_cfg (sample_user "u1")
              (mkUser "u1" "a@example.org" None None None None)
              (sample_world []) 0 [] [] 1)
    as (Hrun & _); [reflexivity | reflexivity | reflexivity | lia |].
  exact Hrun.
Defined.

Lemma other_rejection_logged_witness :
  let entry := mkLogEntry (Some (JStr "u1")) (ClerkThrown (rejection 500)) in
  @processUserToClerk scripted sample_cfg 1 (sample_user "u1")
    (sample_world [Rejected (rejection 500)])
  = @Done scripted
      (@mkWorld scripted 0 0 [] [ECreateUser (sample_params "u1"); EAppendLog entry]).
Proof.
  intros entry.
  destruct (@other_rejection_logged scripted sample_cfg (sample_user "u1")
              (mkUser "u1" "a@example.org" None None None None)
              (sample_world [Rejected (rejection 500)]) (rejection 500) [] 0 [])
    as (Hrun & _);
    [reflexivity | reflexivity | discriminate | discriminate |].
  exact Hrun.
Defined.

Lemma rate_limited_for_ever_witness :
  exists sk,
    @processUserToClerk always_limited sample_cfg 2 (sample_user "u1")
      (@mkWorld always_limited 0 0 tt [])
    = @Spinning always_limited
        (@mkWorld always_limited 0 0 sk
           [ECreateUser (sample_params "u1"); ESleep (Int 10);
            ECreateUser (sample_params "u1"); ESleep (Int 10)]).
Proof.
  destruct (@rate_limited_for_ever always_limited sample_cfg (sample_user "u1")
              (mkUser "u1" "a@example.org" None None None None)
              (@mkWorld always_limited 0 0 tt []))
    with (fuel := 2%nat) (rest := @nil JSObject) as (sk & Hrun & _).
  - reflexivity.
  - intros k. induction k as [|k IH]; [eexists; reflexivity | exact IH].
  - exists sk. exact Hrun.
Defined.

Lemma run_ledger_witness :
  let w := sample_world [Created; Rejected (rejection 422)] in
  exists w' evs,
    @for_each_user scripted sample_cfg 1 [sample_user "u0"; sample_user "u1"] w
    = @Done scripted w'
    /\ @trace scripted w' = evs
    /\ (@migrated scripted w' + length (log_entries evs) = 2)%nat
    /\ @alreadyExists scripted w' = logged_conflicts evs.
Proof.
  intros w. eexists.
  match goal with
  | |- exists evs, ?run = @Done _ ?w' /\ _ =>
      assert (Hrun : run = @Done scripted w') by reflexivity
  end.
  destruct (@run_ledger scripted sample_cfg _ _ _ _ Hrun) as (evs & Htr & Hm & Ha).
  exists evs. split; [exact Hrun |]. split; [exact Htr |]. split; [exact Hm | exact Ha].
Defined.

Lemma pacing_once_per_record_witness :
  let w := sample_world [Rejected (rejection 429); Rejected (rejection 422)] in
  exists w' evs,
    @for_each_user scripted sample_cfg 2 [sample_user "u0"; sample_user "u1"] w
    = @Done scripted w'
    /\ @trace scripted w' = evs
    /\ sleeps_of (Int 1) evs = 2%nat.
Proof.
  intros w. eexists.
  match goal with
  | |- exists evs, ?run = @Done _ ?w' /\ _ =>
      assert (Hrun : run = @Done scripted w') by reflexivity
  end.
  destruct (@pacing_once_per_record scripted sample_cfg _ _ _ _ Hrun)
    as (evs & Htr & Hs); [reflexivity |].
  exists evs. split; [exact Hrun |]. split; [exact Htr | exact Hs].
Defined.

Lemma resume_with_offset_witness :
  let users := [sample_user "u0"; sample_user "u1"] in
  @for_each_user scripted sample_cfg 1 users (sample_world [])
  = @for_each_user scripted sample_cfg 1 (slice (Int 1) users)
      (@mkWorld scripted 1 0 [] [ESleep (Int 1); ECreateUser (sample_params "u0")]).
Proof.
  intros users.
  apply (@resume_with_offset scripted sample_cfg 1 1 users). reflexivity.
Defined.

Lemma offset_beyond_end_witness :
  let cfg := mkConfig "sk_live_abc" (Int 1) (Int 10) "false" (Int 2) bcrypt in
  @main scripted cfg 1 [] sample_files (sample_world [])
  = @MainDone scripted
      (@mkWorld scripted 0 0 []
         [EReadFile "users.json"; EReadFile "users-phone-numbers.json"]).
Proof.
  intros cfg.
  apply (@offset_beyond_end scripted cfg 1 [] sample_files (sample_world [])
           [sample_user "u0"; sample_user "u1"] [] 2);
    [reflexivity | simpl; lia | reflexivity | reflexivity].
Defined.

End DriverLaws.
